(** * Third-party summary audit of the Network plugin

    A shallow embedding of [src/audits/network.js]: the static methods
    [getSummaries], [makeSubItems] and [audit] of the class
    [ThirdPartySummary], and the properties its specification states of them.

    Modelling choices.
    - JavaScript numbers are exact rationals ([Q]); the rounding of IEEE
      doubles is outside the model.  Equalities between numbers are therefore
      stated with [==].
    - A JavaScript [Map] is an association list in insertion order with
      distinct keys, because [Map.prototype.entries] iterates in that order.
    - [getSummaries] uses the identifier [byURL] without declaring it.  The
      identifier is free in the module, so it resolves in the enclosing
      (global) scope.  That scope is the state of the model: either it holds no
      binding for [byURL], and resolving the identifier throws a
      [ReferenceError], or it binds it to a [Map] that every invocation
      mutates in place.
    - What the file imports from Lighthouse and from the JavaScript runtime
      ([getJavaScriptURLs], [getAttributableURLForTask], the tasks themselves,
      [new URL(u).host]) is not part of the repository; it is the interface
      [Platform]. *)

From Stdlib Require Import QArith Qminmax Lqa List Ascii String Bool Arith Lia Permutation Sorted.
Import ListNotations.
Open Scope Q_scope.

(** ** JavaScript numbers and truthiness *)

Module Js.

(** [x < y] on numbers. *)
Definition ltb (x y : Q) : bool := negb (Qle_bool y x).

(** [x > y] on numbers. *)
Definition gtb (x y : Q) : bool := ltb y x.

(** [x <= y] on numbers. *)
Definition leb (x y : Q) : bool := Qle_bool x y.

(** [x === 0]; it is also [!x] for a number [x]. *)
Definition is_zero (x : Q) : bool := Qeq_bool x 0.

(** [x || y] on numbers: [y] when [x] is zero. *)
Definition or_else (x y : Q) : Q := if is_zero x then y else x.

(** Truthiness of a string: the empty string is falsy. *)
Definition truthy (s : string) : bool := negb (String.eqb s "").

(** [Number(b)] for a boolean [b]. *)
Definition Number (b : bool) : Q := if b then 1 else 0.

End Js.

(** ** JavaScript [Map] with string keys *)

Module JsMap.

Definition t (V : Type) : Type := list (string * V).

Definition empty {V : Type} : t V := [].

Fixpoint get {V : Type} (m : t V) (k : string) : option V :=
  match m with
  | [] => None
  | (k', v) :: m' => if String.eqb k' k then Some v else get m' k
  end.

(** [set] overwrites the value of a present key where it stands and appends
    an absent key at the end. *)
Fixpoint set {V : Type} (m : t V) (k : string) (v : V) : t V :=
  match m with
  | [] => [(k, v)]
  | (k', v') :: m' =>
      if String.eqb k' k then (k', v) :: m' else (k', v') :: set m' k v
  end.

Definition entries {V : Type} (m : t V) : list (string * V) := m.

Definition keys {V : Type} (m : t V) : list string := map fst m.

Definition values {V : Type} (m : t V) : list V := map snd m.

End JsMap.

(** ** The data of the audit *)

(** [{ mainThreadTime, blockingTime, transferSize }], the shape of
    [defaultSummary], of the values of [byURL] and of those of [byEntity]. *)
Record Summary : Type := mkSummary {
  mainThreadTime : Q;
  blockingTime : Q;
  transferSize : Q
}.

Definition defaultSummary : Summary :=
  {| mainThreadTime := 0; blockingTime := 0; transferSize := 0 |}.

(** [found || { ...defaultSummary }]: an object is always truthy. *)
Definition orDefault (found : option Summary) : Summary :=
  match found with
  | Some s => s
  | None => defaultSummary
  end.

(** The fields of a network record that the audit itself reads. *)
Module NetworkRecord.
Record t : Type := mk { url : string; transferSize : Q }.
End NetworkRecord.

(** The object returned by [getSummaries]. *)
Record Summaries : Type := mkSummaries {
  byURL : JsMap.t Summary;
  byEntity : JsMap.t Summary;
  urls : JsMap.t (list string)
}.

Definition PASS_THRESHOLD_IN_MS : Q := 250.
Definition MIN_TRANSFER_SIZE_FOR_SUBITEMS : Q := 4096.
Definition MAX_SUBITEMS : nat := 100.

(** ** Exceptions and the enclosing scope *)

Inductive JsError : Type :=
| ReferenceError (name : string)
| TypeError (message : string).

Inductive Completion (A : Type) : Type :=
| Normal (a : A)
| Throw (e : JsError).

Arguments Normal {A} a.
Arguments Throw {A} e.

(** What the identifier [byURL] resolves to outside the function: nothing, or
    a [Map] object. *)
Definition Scope : Type := option (JsMap.t Summary).

(** The module itself declares no [byURL]. *)
Definition moduleScope : Scope := None.

(** A computation that reads and mutates the enclosing scope and may throw.
    The scope it leaves behind is returned also when it throws. *)
Definition Exec (A : Type) : Type := Scope -> Completion A * Scope.

Definition ret {A : Type} (a : A) : Exec A := fun sc => (Normal a, sc).

Definition bind {A B : Type} (m : Exec A) (k : A -> Exec B) : Exec B :=
  fun sc =>
    match m sc with
    | (Normal a, sc') => k a sc'
    | (Throw e, sc') => (Throw e, sc')
    end.

Definition lift {A : Type} (c : Completion A) : Exec A := fun sc => (c, sc).

Notation "x <- m ;; k" := (bind m (fun x => k))
  (at level 61, m at next level, right associativity).
Notation "m ;;; k" := (bind m (fun _ => k))
  (at level 61, right associativity).

(** Evaluating the identifier [byURL]. *)
Definition resolve_byURL : Exec (JsMap.t Summary) :=
  fun sc =>
    match sc with
    | Some m => (Normal m, sc)
    | None => (Throw (ReferenceError "byURL"), sc)
    end.

(** [byURL.get(k)]. *)
Definition byURL_get (k : string) : Exec (option Summary) :=
  m <- resolve_byURL ;; ret (JsMap.get m k).

(** [byURL.set(k, v)]: the object bound in the scope is mutated. *)
Definition byURL_set (k : string) (v : Summary) : Exec unit :=
  m <- resolve_byURL ;; (fun _ => (Normal tt, Some (JsMap.set m k v))).

(** [for (const x of l) body]. *)
Fixpoint forOf {A : Type} (l : list A) (body : A -> Exec unit) : Exec unit :=
  match l with
  | [] => ret tt
  | x :: l' => body x ;;; forOf l' body
  end.

(** A loop over local state in which the body may throw. *)
Fixpoint foldC {A S : Type} (body : S -> A -> Completion S) (l : list A) (s : S)
  : Completion S :=
  match l with
  | [] => Normal s
  | x :: l' =>
      match body s x with
      | Normal s' => foldC body l' s'
      | Throw e => Throw e
      end
  end.

(** ** What the audit imports *)

Class Platform : Type := {
  (** a main-thread task of the trace *)
  Task : Type;
  (** [task.selfTime] *)
  selfTime : Task -> Q;
  (** the set returned by [getJavaScriptURLs] *)
  JsURLs : Type;
  getJavaScriptURLs : list NetworkRecord.t -> JsURLs;
  getAttributableURLForTask : Task -> JsURLs -> string;
  (** [new URL(u).host]; [None] when the constructor throws a [TypeError] *)
  url_host : string -> option string
}.

(** ** [getSummaries] *)

Section GetSummaries.

Context {P : Platform}.

(** Lines 40-42, the body of the loop over the network records. *)
Definition addRequest (request : NetworkRecord.t) : Exec unit :=
  found <- byURL_get (NetworkRecord.url request) ;;
  let urlSummary := orDefault found in
  let urlSummary :=
    {| mainThreadTime := mainThreadTime urlSummary;
       blockingTime := blockingTime urlSummary;
       transferSize := transferSize urlSummary + NetworkRecord.transferSize request |} in
  byURL_set (NetworkRecord.url request) urlSummary.

(** Lines 48-54, the body of the loop over the main-thread tasks. *)
Definition addTask (jsURLs : JsURLs) (cpuMultiplier : Q) (task : Task) : Exec unit :=
  let attributableURL := getAttributableURLForTask task jsURLs in
  found <- byURL_get attributableURL ;;
  let urlSummary := orDefault found in
  let taskDuration := selfTime task * cpuMultiplier in
  let urlSummary :=
    {| mainThreadTime := mainThreadTime urlSummary + taskDuration;
       blockingTime := blockingTime urlSummary + Qmax (taskDuration - 50) 0;
       transferSize := transferSize urlSummary |} in
  byURL_set attributableURL urlSummary.

(** Lines 58-67, the body of the loop over [byURL.entries()]; the state is
    the pair of the local maps [byEntity] and [urls]. *)
Definition addEntry (st : JsMap.t Summary * JsMap.t (list string))
    (entry : string * Summary)
  : Completion (JsMap.t Summary * JsMap.t (list string)) :=
  let '(byEntity, urls) := st in
  let '(url, urlSummary) := entry in
  match url_host url with
  | None => Throw (TypeError "Invalid URL")
  | Some entity =>
      let entitySummary := orDefault (JsMap.get byEntity entity) in
      let entitySummary :=
        {| mainThreadTime := mainThreadTime entitySummary + mainThreadTime urlSummary;
           blockingTime := blockingTime entitySummary + blockingTime urlSummary;
           transferSize := transferSize entitySummary + transferSize urlSummary |} in
      let byEntity := JsMap.set byEntity entity entitySummary in
      let entityURLs :=
        match JsMap.get urls entity with Some l => l | None => [] end in
      let entityURLs := (entityURLs ++ [url])%list in
      Normal (byEntity, JsMap.set urls entity entityURLs)
  end.

(** Lines 35-71.  The [console.log] of line 69 evaluates [byURL] once more
    and has no effect on what is returned. *)
Definition getSummaries (networkRecords : list NetworkRecord.t)
    (mainThreadTasks : list Task) (cpuMultiplier : Q) : Exec Summaries :=
  let byEntity : JsMap.t Summary := JsMap.empty in
  forOf networkRecords addRequest ;;;
  let jsURLs := getJavaScriptURLs networkRecords in
  forOf mainThreadTasks (addTask jsURLs cpuMultiplier) ;;;
  let urls : JsMap.t (list string) := JsMap.empty in
  entries <- (m <- resolve_byURL ;; ret (JsMap.entries m)) ;;
  st <- lift (foldC addEntry entries (byEntity, urls)) ;;
  m <- resolve_byURL ;;
  ret {| byURL := m; byEntity := fst st; urls := snd st |}.

End GetSummaries.

(** ** Sorting

    [Array.prototype.sort] is stable, and both comparators of the file are
    consistent (they order by blocking time, then by transfer size, both
    descending), so the sorted array is determined by the comparator; it is
    computed here by insertion from the right. *)

Module JsArray.

Fixpoint insert {A : Type} (cmp : A -> A -> Q) (x : A) (l : list A) : list A :=
  match l with
  | [] => [x]
  | y :: l' => if Qle_bool (cmp x y) 0 then x :: l else y :: insert cmp x l'
  end.

Definition sort {A : Type} (cmp : A -> A -> Q) (l : list A) : list A :=
  fold_right (insert cmp) [] l.

(** [l.slice(0, n)] *)
Definition slice0 {A : Type} (n : nat) (l : list A) : list A := firstn n l.

End JsArray.

(** ** [makeSubItems] *)

(** The [url] of a sub-item: a URL of the entity, or the localized label of
    the remainder, [str_(i18n.UIStrings.otherResourcesLabel)]. *)
Inductive ItemUrl : Type :=
| Url (u : string)
| OtherResourcesLabel.

(** An element of the array returned by [makeSubItems].  The items made from
    [byURL] carry the three fields of the summary; the remainder has no
    [mainThreadTime]. *)
Record SubItem : Type := mkSubItem {
  item_url : ItemUrl;
  item_mainThreadTime : option Q;
  item_blockingTime : Q;
  item_transferSize : Q
}.

(** The local object [subitemSummary]. *)
Record SubitemSummary : Type := mkSubitemSummary {
  sub_transferSize : Q;
  sub_blockingTime : Q
}.

(** [url => ({ url, ...summaries.byURL.get(url) })]: when the URL is not a
    key of [byURL] the object has the field [url] only. *)
Definition joinURL (summaries : Summaries) (url : string) : string * option Summary :=
  (url, JsMap.get (byURL summaries) url).

(** [(stat) => stat.transferSize > 0]; [undefined > 0] is false. *)
Definition hasTransfer (stat : string * option Summary) : bool :=
  match snd stat with
  | Some s => Js.gtb (transferSize s) 0
  | None => false
  end.

(** The objects that pass the filter, as sub-items. *)
Definition toItem (stat : string * option Summary) : list SubItem :=
  match snd stat with
  | Some s =>
      [ {| item_url := Url (fst stat);
           item_mainThreadTime := Some (mainThreadTime s);
           item_blockingTime := blockingTime s;
           item_transferSize := transferSize s |} ]
  | None => []
  end.

(** [(a, b) => (b.blockingTime - a.blockingTime) || (b.transferSize - a.transferSize)] *)
Definition compareItems (a b : SubItem) : Q :=
  Js.or_else (item_blockingTime b - item_blockingTime a)
             (item_transferSize b - item_transferSize a).

(** Lines 73-77. *)
Definition candidateItems (entity : string) (summaries : Summaries) : list SubItem :=
  let entityURLs :=
    match JsMap.get (urls summaries) entity with Some l => l | None => [] end in
  JsArray.sort compareItems
    (flat_map toItem (filter hasTransfer (map (joinURL summaries) entityURLs))).

(** [Math.max(MIN_TRANSFER_SIZE_FOR_SUBITEMS, stats.transferSize / 20)] *)
Definition minTransferSizeOf (stats : Summary) : Q :=
  Qmax MIN_TRANSFER_SIZE_FOR_SUBITEMS (transferSize stats / 20).

(** Lines 83-92.  The loop reads [items[numSubItems]] and then increments
    [numSubItems], so it walks the array from its head: [rest] is the part of
    [items] from index [numSubItems] on.  When [rest] is exhausted
    [numSubItems] is [items.length], which is at least [maxSubItems]. *)
Fixpoint selectLoop (minTransferSize : Q) (maxSubItems : nat) (rest : list SubItem)
    (numSubItems : nat) (subitemSummary : SubitemSummary) : nat * SubitemSummary :=
  match rest with
  | [] => (numSubItems, subitemSummary)
  | nextSubItem :: rest' =>
      if (numSubItems <? maxSubItems)%nat then
        if Js.is_zero (item_blockingTime nextSubItem)
           && Js.ltb (item_transferSize nextSubItem) minTransferSize
        then (numSubItems, subitemSummary)
        else
          selectLoop minTransferSize maxSubItems rest' (S numSubItems)
            {| sub_transferSize :=
                 sub_transferSize subitemSummary + item_transferSize nextSubItem;
               sub_blockingTime :=
                 sub_blockingTime subitemSummary + item_blockingTime nextSubItem |}
      else (numSubItems, subitemSummary)
  end.

(** The state of the loop when it is left. *)
Definition selection (entity : string) (summaries : Summaries) (stats : Summary)
  : nat * SubitemSummary :=
  let items := candidateItems entity summaries in
  selectLoop (minTransferSizeOf stats) (Nat.min MAX_SUBITEMS (List.length items)) items
    0%nat {| sub_transferSize := 0; sub_blockingTime := 0 |}.

(** The object [remainder] of lines 97-101. *)
Definition remainderOf (stats : Summary) (subitemSummary : SubitemSummary) : SubItem :=
  {| item_url := OtherResourcesLabel;
     item_mainThreadTime := None;
     item_blockingTime := blockingTime stats - sub_blockingTime subitemSummary;
     item_transferSize := transferSize stats - sub_transferSize subitemSummary |}.

Definition makeSubItems (entity : string) (summaries : Summaries) (stats : Summary)
  : list SubItem :=
  let items := candidateItems entity summaries in
  let minTransferSize := minTransferSizeOf stats in
  let '(numSubItems, subitemSummary) := selection entity summaries stats in
  if Js.is_zero (sub_blockingTime subitemSummary)
     && Js.is_zero (sub_transferSize subitemSummary)
  then []
  else
    let items := JsArray.slice0 numSubItems items in
    let remainder := remainderOf stats subitemSummary in
    if Js.gtb (item_transferSize remainder) minTransferSize
    then (items ++ [remainder])%list
    else items.

(** ** [audit] *)

(** The part of [context.settings] that the audit reads;
    [cpuSlowdownMultiplier] is [settings.throttling.cpuSlowdownMultiplier]. *)
Record Settings : Type := mkSettings {
  throttlingMethod : string;
  cpuSlowdownMultiplier : Q
}.

(** The [entity] field of a row: [{ type: 'link', text, url }]. *)
Record EntityLink : Type := mkEntityLink {
  link_text : string;
  link_url : string
}.

(** An element of [results]: [{ ...stats, entity, subItems }]. *)
Record Row : Type := mkRow {
  row_stats : Summary;
  row_entity : EntityLink;
  row_subItems : list SubItem
}.

Record OverallSummary : Type := mkOverall {
  wastedBytes : Q;
  wastedMs : Q
}.

(** [Audit.makeTableDetails(headings, results, overallSummary)]; the headings
    are constants. *)
Record Details : Type := mkDetails {
  details_items : list Row;
  details_summary : OverallSummary
}.

(** The object the audit resolves to.  [notApplicable] is [false] when the
    key is absent; [displayValue] is its argument [timeInMs]. *)
Record AuditResult : Type := mkAuditResult {
  score : Q;
  notApplicable : bool;
  displayValue : option Q;
  details : option Details
}.

(** [([entity]) => !(mainEntity && mainEntity === entity)] *)
Definition keepEntity (mainEntity : string) (entry : string * Summary) : bool :=
  negb (Js.truthy mainEntity && String.eqb mainEntity (fst entry)).

(** The object returned by the callback of [.map], lines 127-138;
    [entity || ''] is [entity] for every string. *)
Definition rowOf (summaries : Summaries) (entry : string * Summary) : Row :=
  let '(entity, stats) := entry in
  {| row_stats := stats;
     row_entity := {| link_text := entity; link_url := entity |};
     row_subItems := makeSubItems entity summaries stats |}.

(** One call of the callback of [.map]: it adds to [overallSummary] and
    yields the row. *)
Definition mapEntry (summaries : Summaries) (st : OverallSummary * list Row)
    (entry : string * Summary) : OverallSummary * list Row :=
  let '(overallSummary, rows) := st in
  ({| wastedBytes := wastedBytes overallSummary + transferSize (snd entry);
      wastedMs := wastedMs overallSummary + blockingTime (snd entry) |},
   (rows ++ [rowOf summaries entry])%list).

(** [(a, b) => (b.blockingTime - a.blockingTime) || (b.transferSize - a.transferSize)] on rows *)
Definition compareRows (a b : Row) : Q :=
  Js.or_else (blockingTime (row_stats b) - blockingTime (row_stats a))
             (transferSize (row_stats b) - transferSize (row_stats a)).

(** Lines 119-140: [overallSummary] after the [.map], and [results]. *)
Definition buildResults (mainEntity : string) (summaries : Summaries)
  : OverallSummary * list Row :=
  let kept := filter (keepEntity mainEntity) (JsMap.entries (byEntity summaries)) in
  let '(overallSummary, rows) :=
    fold_left (mapEntry summaries) kept
      ({| wastedBytes := 0; wastedMs := 0 |}, []) in
  (overallSummary, JsArray.sort compareRows rows).

(** Lines 148-161. *)
Definition verdict (overallSummary : OverallSummary) (results : list Row) : AuditResult :=
  match results with
  | [] =>
      {| score := 1; notApplicable := true; displayValue := None; details := None |}
  | _ :: _ =>
      {| score := Js.Number (Js.leb (wastedMs overallSummary) PASS_THRESHOLD_IN_MS);
         notApplicable := false;
         displayValue := Some (wastedMs overallSummary);
         details := Some {| details_items := results;
                            details_summary := overallSummary |} |}
  end.

Section Audit.

Context {P : Platform}.

(** [new URL(u).host] *)
Definition hostOf (u : string) : Completion string :=
  match url_host u with
  | Some h => Normal h
  | None => Throw (TypeError "Invalid URL")
  end.

(** The network records and the tasks are the values the two computed
    artifacts resolve to; [settings] is [None] when [context.settings] is
    undefined. *)
Definition audit (finalUrl : string) (networkRecords : list NetworkRecord.t)
    (tasks : list Task) (settings : option Settings) : Exec AuditResult :=
  mainEntity <- lift (hostOf finalUrl) ;;
  let multiplier :=
    match settings with
    | Some s =>
        if String.eqb (throttlingMethod s) "simulate"
        then cpuSlowdownMultiplier s else 1
    | None => 1
    end in
  summaries <- getSummaries networkRecords tasks multiplier ;;
  let '(overallSummary, results) := buildResults mainEntity summaries in
  ret (verdict overallSummary results).

End Audit.

(** ** Quantities the properties are stated with *)

Fixpoint sumQ (l : list Q) : Q :=
  match l with
  | [] => 0
  | x :: l' => x + sumQ l'
  end.

(** The sum of one field over the values of a map. *)
Definition total (f : Summary -> Q) (m : JsMap.t Summary) : Q :=
  sumQ (map f (JsMap.values m)).

(** The bytes and the blocking time of a list of sub-items. *)
Definition itemBytes (l : list SubItem) : Q := sumQ (map item_transferSize l).
Definition itemBlocking (l : list SubItem) : Q := sumQ (map item_blockingTime l).

(** The list holds the remainder item. *)
Definition hasRemainder (l : list SubItem) : bool :=
  existsb (fun it => match item_url it with
                     | OtherResourcesLabel => true
                     | Url _ => false
                     end) l.

(** [blockingTime <= mainThreadTime] on every value of a map. *)
Definition blockingBounded (m : JsMap.t Summary) : bool :=
  forallb (fun s => Qle_bool (blockingTime s) (mainThreadTime s)) (JsMap.values m).

(** The entities of rows, as the report shows them. *)
Definition rowEntities (rows : list Row) : list string :=
  map (fun r => link_text (row_entity r)) rows.

(** The rows of a result; a not-applicable result has none. *)
Definition resultRows (r : AuditResult) : list Row :=
  match details r with
  | Some d => details_items d
  | None => []
  end.

(** The bytes of the URLs of an entity in [summaries], a URL counting once
    for each time it is listed. *)
Definition entityTransfer (entity : string) (summaries : Summaries) : Q :=
  let entityURLs :=
    match JsMap.get (urls summaries) entity with Some l => l | None => [] end in
  sumQ (map (fun u => transferSize (orDefault (JsMap.get (byURL summaries) u)))
            entityURLs).

(** No URL of [byURL] has a negative transfer size. *)
Definition transfersNonNegative (summaries : Summaries) : bool :=
  forallb (fun s => Qle_bool 0 (transferSize s)) (JsMap.values (byURL summaries)).

Section Effects.

Context {P : Platform}.

(** [task.selfTime * cpuMultiplier] *)
Definition taskDuration (cpuMultiplier : Q) (task : Task) : Q :=
  selfTime task * cpuMultiplier.

(** The part of a task's scaled duration beyond 50 ms. *)
Definition clipped (cpuMultiplier : Q) (task : Task) : Q :=
  Qmax (taskDuration cpuMultiplier task - 50) 0.

(** What [addRequest] does to the [Map] that [byURL] is bound to. *)
Definition requestStep (m : JsMap.t Summary) (request : NetworkRecord.t)
  : JsMap.t Summary :=
  let s := orDefault (JsMap.get m (NetworkRecord.url request)) in
  JsMap.set m (NetworkRecord.url request)
    {| mainThreadTime := mainThreadTime s;
       blockingTime := blockingTime s;
       transferSize := transferSize s + NetworkRecord.transferSize request |}.

(** What [addTask] does to the [Map] that [byURL] is bound to. *)
Definition taskStep (jsURLs : JsURLs) (cpuMultiplier : Q) (m : JsMap.t Summary)
    (task : Task) : JsMap.t Summary :=
  let u := getAttributableURLForTask task jsURLs in
  let s := orDefault (JsMap.get m u) in
  JsMap.set m u
    {| mainThreadTime := mainThreadTime s + selfTime task * cpuMultiplier;
       blockingTime := blockingTime s + Qmax (selfTime task * cpuMultiplier - 50) 0;
       transferSize := transferSize s |}.

(** The [Map] after the two loops of [getSummaries], from the one found. *)
Definition aggregated (m : JsMap.t Summary) (networkRecords : list NetworkRecord.t)
    (mainThreadTasks : list Task) (cpuMultiplier : Q) : JsMap.t Summary :=
  fold_left (taskStep (getJavaScriptURLs networkRecords) cpuMultiplier)
    mainThreadTasks (fold_left requestStep networkRecords m).

(** The URL has the host [entity]. *)
Definition hasHost (entity : string) (u : string) : bool :=
  match url_host u with
  | Some h => String.eqb h entity
  | None => false
  end.

(** The sum of a field over the entries whose URL has the host [entity]. *)
Definition entitySum (f : Summary -> Q) (entity : string)
    (entries : list (string * Summary)) : Q :=
  sumQ (map (fun e => f (snd e)) (filter (fun e => hasHost entity (fst e)) entries)).

(** Every URL of the list has a host. *)
Definition allParse (us : list string) : bool :=
  forallb (fun u => match url_host u with Some _ => true | None => false end) us.

(** No task has a negative scaled duration. *)
Definition durationsNonNegative (cpuMultiplier : Q) (tasks : list Task) : bool :=
  forallb (fun t => Qle_bool 0 (taskDuration cpuMultiplier t)) tasks.

(** The multiplier chosen at lines 115-116. *)
Definition multiplierOf (settings : option Settings) : Q :=
  match settings with
  | Some s =>
      if String.eqb (throttlingMethod s) "simulate"
      then cpuSlowdownMultiplier s else 1
  | None => 1
  end.

End Effects.

(** ** Quantities of the further properties *)

(** [summaries.urls.get(entity) || []] *)
Definition urlsOf (entity : string) (summaries : Summaries) : list string :=
  match JsMap.get (urls summaries) entity with Some l => l | None => [] end.

(** The item does not stop the loop at line 85: it has blocking time, or its
    transfer size reaches the floor. *)
Definition passes (minTransferSize : Q) (it : SubItem) : bool :=
  negb (Js.is_zero (item_blockingTime it)
        && Js.ltb (item_transferSize it) minTransferSize).

(** The order of the two sorts: more blocking time first and, for the same
    blocking time, more bytes first. *)
Definition costlier (blocking1 bytes1 blocking2 bytes2 : Q) : Prop :=
  blocking2 < blocking1 \/ (blocking1 == blocking2 /\ bytes2 <= bytes1).

Definition itemBefore (a b : SubItem) : Prop :=
  costlier (item_blockingTime a) (item_transferSize a)
           (item_blockingTime b) (item_transferSize b).

Definition rowBefore (a b : Row) : Prop :=
  costlier (blockingTime (row_stats a)) (transferSize (row_stats a))
           (blockingTime (row_stats b)) (transferSize (row_stats b)).

(** The records of one URL. *)
Definition requestsOf (u : string) (networkRecords : list NetworkRecord.t)
  : list NetworkRecord.t :=
  filter (fun r => String.eqb (NetworkRecord.url r) u) networkRecords.

(** No summary of [byURL] has a negative blocking time. *)
Definition blockingNonNegative (summaries : Summaries) : bool :=
  forallb (fun s => Qle_bool 0 (blockingTime s)) (JsMap.values (byURL summaries)).

(** One summary has the bytes of the other and no more time. *)
Definition summaryLe (a b : Summary) : Prop :=
  transferSize a == transferSize b
  /\ blockingTime a <= blockingTime b
  /\ mainThreadTime a <= mainThreadTime b.

(** Two maps with the same keys in the same order, the summaries of the first
    below those of the second. *)
Definition mapLe (m1 m2 : JsMap.t Summary) : Prop :=
  Forall2 (fun e1 e2 => fst e1 = fst e2 /\ summaryLe (snd e1) (snd e2)) m1 m2.

Section FurtherEffects.

Context {P : Platform}.

(** The tasks attributed to one URL. *)
Definition tasksOf (jsURLs : JsURLs) (u : string) (tasks : list Task) : list Task :=
  filter (fun t => String.eqb (getAttributableURLForTask t jsURLs) u) tasks.

End FurtherEffects.

(** ** A platform for the examples *)

Module Example.

(** A task with the URL it is attributed to. *)
Record task : Type := mkTask { task_selfTime : Q; task_url : string }.

(** The text after the first ["://"]. *)
Fixpoint afterScheme (u : string) : option string :=
  match u with
  | EmptyString => None
  | String _ u' =>
      if String.prefix "://" u
      then Some (String.substring 3 (String.length u - 3) u)
      else afterScheme u'
  end.

Fixpoint upToSlash (s : string) : string :=
  match s with
  | EmptyString => EmptyString
  | String c s' => if Ascii.eqb c "/"%char then EmptyString else String c (upToSlash s')
  end.

(** [new URL(u).host] on the URLs of the examples, which have the form
    [scheme://host/path] with a lower-case host and no user, port, query or
    fragment; a text without ["://"], such as ["Unattributable"], is not a
    URL. *)
Definition host (u : string) : option string :=
  option_map upToSlash (afterScheme u).

(** Every record counts as a script; the attribution does not look at the
    set. *)
Definition platform : Platform :=
  {| Task := task;
     selfTime := task_selfTime;
     JsURLs := list string;
     getJavaScriptURLs := map NetworkRecord.url;
     getAttributableURLForTask := fun t _ => task_url t;
     url_host := host |}.

(** A scope in which the host has bound [byURL] to a new, empty [Map]. *)
Definition freshScope : Scope := Some JsMap.empty.

(** One record of 10000 bytes from [a.com]. *)
Definition recordsA : list NetworkRecord.t :=
  [ NetworkRecord.mk "https://a.com/x.js" 10000 ].

(** Three tasks of 100 ms attributed to a script of [a.com]. *)
Definition tasksA : list task :=
  [ mkTask 100 "https://a.com/x.js"; mkTask 100 "https://a.com/x.js";
    mkTask 100 "https://a.com/x.js" ].

(** A page opened from a file, and a script it loads from a file. *)
Definition filePage : string := "file:///index.html".
Definition fileRecords : list NetworkRecord.t :=
  [ NetworkRecord.mk "file:///app.js" 10000;
    NetworkRecord.mk "https://a.com/x.js" 2000 ].

(** What [getSummaries] returns for [recordsA] and [tasksA] with the
    multiplier 4, from an empty [Map]. *)
Definition summariesA4 : Summaries :=
  {| byURL := [("https://a.com/x.js"%string, mkSummary 1200 1050 10000)];
     byEntity := [("a.com"%string, mkSummary 1200 1050 10000)];
     urls := [("a.com"%string, ["https://a.com/x.js"%string])] |}.

(** What it returns for [fileRecords] and no task. *)
Definition fileSummaries : Summaries :=
  {| byURL := [("file:///app.js"%string, mkSummary 0 0 10000);
               ("https://a.com/x.js"%string, mkSummary 0 0 2000)];
     byEntity := [(""%string, mkSummary 0 0 10000);
                  ("a.com"%string, mkSummary 0 0 2000)];
     urls := [(""%string, ["file:///app.js"%string]);
              ("a.com"%string, ["https://a.com/x.js"%string])] |}.

(** [n] distinct URLs. *)
Fixpoint manyURLs (n : nat) : list string :=
  match n with
  | O => []
  | S n' => String "u" (string_of_list_ascii (repeat "x"%char n')) :: manyURLs n'
  end.

(** Summaries of one entity [cdn.example] with [n] URLs, each of [bytes]
    bytes and [blocking] ms of blocking time, and the entity's summary. *)
Definition uniformStats (n : nat) (blocking bytes : Q) : Summary :=
  mkSummary (inject_Z (Z.of_nat n) * blocking) (inject_Z (Z.of_nat n) * blocking)
    (inject_Z (Z.of_nat n) * bytes).

Definition uniformSummaries (n : nat) (blocking bytes : Q) : Summaries :=
  {| byURL := map (fun u => (u, mkSummary blocking blocking bytes)) (manyURLs n);
     byEntity := [("cdn.example"%string, uniformStats n blocking bytes)];
     urls := [("cdn.example"%string, manyURLs n)] |}.

(** Summaries of one entity with one large script and two small resources. *)
Definition mixedSummaries : Summaries :=
  {| byURL := [("https://cdn.example/big.js"%string, mkSummary 300 200 100000);
               ("https://cdn.example/a.png"%string, mkSummary 0 0 3000);
               ("https://cdn.example/b.png"%string, mkSummary 0 0 3000)];
     byEntity := [("cdn.example"%string, mkSummary 300 200 106000)];
     urls := [("cdn.example"%string,
               ["https://cdn.example/big.js"%string;
                "https://cdn.example/a.png"%string;
                "https://cdn.example/b.png"%string])] |}.

Definition mixedStats : Summary := mkSummary 300 200 106000.

End Example.

(** * Properties *)

(** ** Maps *)

Lemma JsMap_get_set_same {V : Type} (m : JsMap.t V) (k : string) (v : V) :
  JsMap.get (JsMap.set m k v) k = Some v.
Proof.
  induction m as [|[k' v'] m IH]; simpl.
  - now rewrite String.eqb_refl.
  - destruct (String.eqb k' k) eqn:E; simpl; now rewrite E.
Qed.

Lemma JsMap_get_set_other {V : Type} (m : JsMap.t V) (k k' : string) (v : V) :
  k' <> k -> JsMap.get (JsMap.set m k v) k' = JsMap.get m k'.
Proof.
  intros Hne.
  induction m as [|[k0 v0] m IH]; simpl.
  - destruct (String.eqb_spec k k'); congruence.
  - destruct (String.eqb_spec k0 k) as [->|Hk]; simpl.
    + destruct (String.eqb_spec k k'); congruence.
    + now rewrite IH.
Qed.

Lemma JsMap_keys_set {V : Type} (m : JsMap.t V) (k : string) (v : V) (k' : string) :
  In k' (JsMap.keys (JsMap.set m k v)) -> In k' (JsMap.keys m) \/ k' = k.
Proof.
  unfold JsMap.keys.
  induction m as [|[k0 v0] m IH]; simpl.
  - intros [<-|[]]; now right.
  - destruct (String.eqb k0 k); simpl.
    + intros [<-|H]; auto.
    + intros [<-|H]; auto. destruct (IH H); auto.
Qed.

Lemma JsMap_get_in_keys {V : Type} (m : JsMap.t V) (k : string) (v : V) :
  JsMap.get m k = Some v -> In k (JsMap.keys m).
Proof.
  unfold JsMap.keys.
  induction m as [|[k0 v0] m IH]; simpl; [discriminate|].
  destruct (String.eqb_spec k0 k) as [->|Hk]; auto.
Qed.

Lemma JsMap_in_keys_get {V : Type} (m : JsMap.t V) (k : string) :
  In k (JsMap.keys m) -> exists v, JsMap.get m k = Some v.
Proof.
  unfold JsMap.keys.
  induction m as [|[k0 v0] m IH]; simpl; [intros []|].
  destruct (String.eqb_spec k0 k) as [->|Hk]; [eauto|].
  intros [H|H]; [congruence | auto].
Qed.

(** The field sums of a map after [set], for a field that is zero on
    [defaultSummary]. *)
Lemma total_set (f : Summary -> Q) (m : JsMap.t Summary) (k : string) (v : Summary) :
  f defaultSummary == 0 ->
  total f (JsMap.set m k v) == total f m - f (orDefault (JsMap.get m k)) + f v.
Proof.
  intros Hf. unfold total, JsMap.values.
  induction m as [|[k0 v0] m IH]; simpl.
  - rewrite Hf. lra.
  - destruct (String.eqb k0 k); simpl; lra.
Qed.

(** ** The scope *)

Section ScopeFacts.

Context {P : Platform}.

Lemma addRequest_bound (m : JsMap.t Summary) (request : NetworkRecord.t) :
  addRequest request (Some m) = (Normal tt, Some (requestStep m request)).
Proof. reflexivity. Qed.

Lemma addTask_bound (jsURLs : JsURLs) (cpuMultiplier : Q) (m : JsMap.t Summary)
    (task : Task) :
  addTask jsURLs cpuMultiplier task (Some m)
  = (Normal tt, Some (taskStep jsURLs cpuMultiplier m task)).
Proof. reflexivity. Qed.

Lemma forOf_bound {A : Type} (body : A -> Exec unit)
    (step : JsMap.t Summary -> A -> JsMap.t Summary) :
  (forall m x, body x (Some m) = (Normal tt, Some (step m x))) ->
  forall l m, forOf l body (Some m) = (Normal tt, Some (fold_left step l m)).
Proof.
  intros Hb l. induction l as [|x l IH]; intros m; simpl; [reflexivity|].
  unfold bind. now rewrite Hb, IH.
Qed.

(** With [byURL] bound, [getSummaries] runs its two loops on the [Map] it
    finds, and throws only if a key has no host.  The [Map] stays bound,
    with what the invocation added to it. *)
Lemma getSummaries_bound (m : JsMap.t Summary) (networkRecords : list NetworkRecord.t)
    (mainThreadTasks : list Task) (cpuMultiplier : Q) :
  getSummaries networkRecords mainThreadTasks cpuMultiplier (Some m)
  = let m' := aggregated m networkRecords mainThreadTasks cpuMultiplier in
    (match foldC addEntry (JsMap.entries m') (JsMap.empty, JsMap.empty) with
     | Normal st => Normal {| byURL := m'; byEntity := fst st; urls := snd st |}
     | Throw e => Throw e
     end, Some m').
Proof.
  unfold getSummaries, aggregated, bind at 1.
  rewrite (forOf_bound _ _ addRequest_bound).
  unfold bind at 1.
  rewrite (forOf_bound _ _ (addTask_bound _ _)).
  unfold bind, resolve_byURL, ret, lift. simpl.
  now destruct (foldC addEntry _ _).
Qed.

(** Without a binding the function throws whatever it is given: if both
    arrays are empty the loops do not touch [byURL], and line 57 does. *)
Lemma getSummaries_unbound (networkRecords : list NetworkRecord.t)
    (mainThreadTasks : list Task) (cpuMultiplier : Q) :
  getSummaries networkRecords mainThreadTasks cpuMultiplier None
  = (Throw (ReferenceError "byURL"), None).
Proof.
  destruct networkRecords as [|r rs]; [|reflexivity].
  destruct mainThreadTasks as [|t ts]; reflexivity.
Qed.

End ScopeFacts.

(** ** Totals *)

Section FieldSums.

Context {P : Platform}.

(** A field that [addEntry] adds up: any of the three fields. *)
Variable f : Summary -> Q.
Hypothesis f_default : f defaultSummary == 0.
Hypothesis f_add : forall a b,
  f {| mainThreadTime := mainThreadTime a + mainThreadTime b;
       blockingTime := blockingTime a + blockingTime b;
       transferSize := transferSize a + transferSize b |} == f a + f b.

Lemma total_addEntry (st st' : JsMap.t Summary * JsMap.t (list string))
    (entry : string * Summary) :
  addEntry st entry = Normal st' ->
  total f (fst st') == total f (fst st) + f (snd entry).
Proof.
  destruct st as [bE us], entry as [u s]. unfold addEntry.
  destruct (url_host u) as [e|]; [|discriminate].
  intros H. injection H as <-. simpl fst. simpl snd.
  rewrite (total_set f _ _ _ f_default), f_add. lra.
Qed.

Lemma total_foldC_addEntry (entries : list (string * Summary)) :
  forall st st', foldC addEntry entries st = Normal st' ->
  total f (fst st') == total f (fst st) + sumQ (map f (map snd entries)).
Proof.
  induction entries as [|entry entries IH]; intros st st'; simpl.
  - intros H. injection H as <-. lra.
  - destruct (addEntry st entry) as [st1|] eqn:E; [|discriminate].
    intros H. rewrite (IH _ _ H), (total_addEntry _ _ _ E). lra.
Qed.

(** The entities of the returned summaries hold what the URLs hold. *)
Lemma byEntity_total (m : JsMap.t Summary) (networkRecords : list NetworkRecord.t)
    (mainThreadTasks : list Task) (cpuMultiplier : Q) (s : Summaries) (sc : Scope) :
  getSummaries networkRecords mainThreadTasks cpuMultiplier (Some m) = (Normal s, sc) ->
  total f (byEntity s) == total f (byURL s).
Proof.
  rewrite getSummaries_bound. cbv zeta.
  destruct (foldC addEntry _ _) as [st|] eqn:E; [|discriminate].
  intros H. injection H as <- _. simpl.
  rewrite (total_foldC_addEntry _ _ _ E). unfold total, JsMap.values, JsMap.entries.
  simpl. lra.
Qed.

End FieldSums.

Section UrlTotals.

Context {P : Platform}.

Lemma transfer_requests (networkRecords : list NetworkRecord.t) :
  forall m,
  total transferSize (fold_left requestStep networkRecords m)
  == total transferSize m + sumQ (map NetworkRecord.transferSize networkRecords).
Proof.
  induction networkRecords as [|r rs IH]; intros m; simpl; [lra|].
  rewrite IH. unfold requestStep.
  rewrite total_set by reflexivity. simpl. lra.
Qed.

Lemma times_requests (networkRecords : list NetworkRecord.t) :
  forall m,
  total mainThreadTime (fold_left requestStep networkRecords m) == total mainThreadTime m
  /\ total blockingTime (fold_left requestStep networkRecords m) == total blockingTime m.
Proof.
  induction networkRecords as [|r rs IH]; intros m; simpl; [split; lra|].
  destruct (IH (requestStep m r)) as [-> ->]. unfold requestStep.
  rewrite !total_set by reflexivity. simpl. split; lra.
Qed.

Lemma totals_tasks (jsURLs : JsURLs) (cpuMultiplier : Q) (tasks : list Task) :
  forall m,
  total transferSize (fold_left (taskStep jsURLs cpuMultiplier) tasks m)
  == total transferSize m
  /\ total mainThreadTime (fold_left (taskStep jsURLs cpuMultiplier) tasks m)
     == total mainThreadTime m + sumQ (map (taskDuration cpuMultiplier) tasks)
  /\ total blockingTime (fold_left (taskStep jsURLs cpuMultiplier) tasks m)
     == total blockingTime m + sumQ (map (clipped cpuMultiplier) tasks).
Proof.
  induction tasks as [|t ts IH]; intros m; simpl; [repeat split; lra|].
  destruct (IH (taskStep jsURLs cpuMultiplier m t)) as (-> & -> & ->).
  unfold taskStep, clipped, taskDuration.
  rewrite !total_set by reflexivity. simpl. repeat split; lra.
Qed.

(** What one invocation adds to the [Map] it finds. *)
Lemma aggregated_totals (m : JsMap.t Summary) (networkRecords : list NetworkRecord.t)
    (mainThreadTasks : list Task) (cpuMultiplier : Q) :
  let m' := aggregated m networkRecords mainThreadTasks cpuMultiplier in
  total transferSize m'
  == total transferSize m + sumQ (map NetworkRecord.transferSize networkRecords)
  /\ total mainThreadTime m'
     == total mainThreadTime m + sumQ (map (taskDuration cpuMultiplier) mainThreadTasks)
  /\ total blockingTime m'
     == total blockingTime m + sumQ (map (clipped cpuMultiplier) mainThreadTasks).
Proof.
  unfold aggregated. cbv zeta.
  destruct (totals_tasks (getJavaScriptURLs networkRecords) cpuMultiplier
              mainThreadTasks (fold_left requestStep networkRecords m))
    as (-> & -> & ->).
  rewrite transfer_requests.
  destruct (times_requests networkRecords m) as [-> ->].
  repeat split; lra.
Qed.

(** The summaries hold what the [Map] held before plus what the invocation
    was given; with a [Map] that was empty they hold exactly the input. *)
Lemma getSummaries_totals (m : JsMap.t Summary) (networkRecords : list NetworkRecord.t)
    (mainThreadTasks : list Task) (cpuMultiplier : Q) (s : Summaries) (sc : Scope) :
  getSummaries networkRecords mainThreadTasks cpuMultiplier (Some m) = (Normal s, sc) ->
  total transferSize (byEntity s)
  == total transferSize m + sumQ (map NetworkRecord.transferSize networkRecords)
  /\ total mainThreadTime (byEntity s)
     == total mainThreadTime m + sumQ (map (taskDuration cpuMultiplier) mainThreadTasks)
  /\ total blockingTime (byEntity s)
     == total blockingTime m + sumQ (map (clipped cpuMultiplier) mainThreadTasks).
Proof.
  intros H.
  rewrite (byEntity_total transferSize) by (try eassumption; intros; simpl; lra || reflexivity).
  rewrite (byEntity_total mainThreadTime) by (try eassumption; intros; simpl; lra || reflexivity).
  rewrite (byEntity_total blockingTime) by (try eassumption; intros; simpl; lra || reflexivity).
  rewrite getSummaries_bound in H. cbv zeta in H.
  destruct (foldC addEntry _ _); [|discriminate].
  injection H as <- _. simpl. apply aggregated_totals.
Qed.

End UrlTotals.

(** ** Predicates on the values of a map *)

Lemma values_set_forallb (p : Summary -> bool) (m : JsMap.t Summary) (k : string)
    (v : Summary) :
  forallb p (JsMap.values m) = true -> p v = true ->
  forallb p (JsMap.values (JsMap.set m k v)) = true.
Proof.
  unfold JsMap.values. intros Hm Hv.
  induction m as [|[k0 v0] m IH]; simpl in *.
  - now rewrite Hv.
  - apply andb_true_iff in Hm as [H0 Hm].
    destruct (String.eqb k0 k); simpl.
    + now rewrite Hv, Hm.
    + now rewrite H0, IH.
Qed.

Lemma orDefault_forallb (p : Summary -> bool) (m : JsMap.t Summary) (k : string) :
  p defaultSummary = true -> forallb p (JsMap.values m) = true ->
  p (orDefault (JsMap.get m k)) = true.
Proof.
  unfold JsMap.values. intros Hd Hm.
  induction m as [|[k0 v0] m IH]; simpl in *; [assumption|].
  apply andb_true_iff in Hm as [H0 Hm].
  destruct (String.eqb k0 k); simpl; auto.
Qed.

Lemma forallb_firstn {A : Type} (p : A -> bool) (l : list A) (n : nat) :
  forallb p l = true -> forallb p (firstn n l) = true.
Proof.
  revert n. induction l as [|x l IH]; intros [|n]; simpl; auto.
  intros H. apply andb_true_iff in H as [-> H]. simpl. auto.
Qed.

Lemma forallb_values_entries (p : Summary -> bool) (m : JsMap.t Summary) :
  forallb p (JsMap.values m) = true ->
  forall k s, In (k, s) (JsMap.entries m) -> p s = true.
Proof.
  unfold JsMap.values, JsMap.entries. intros H k s Hin.
  rewrite forallb_forall in H. apply H. now apply (in_map snd) in Hin.
Qed.

(** ** [blockingTime <= mainThreadTime] *)

Section Bounded.

Context {P : Platform}.

Lemma requestStep_bounded (m : JsMap.t Summary) (request : NetworkRecord.t) :
  blockingBounded m = true -> blockingBounded (requestStep m request) = true.
Proof.
  intros Hm. unfold requestStep. apply values_set_forallb; [exact Hm|].
  exact (orDefault_forallb (fun s => Qle_bool (blockingTime s) (mainThreadTime s)) m _ eq_refl Hm).
Qed.

Lemma requests_bounded (networkRecords : list NetworkRecord.t) :
  forall m, blockingBounded m = true ->
  blockingBounded (fold_left requestStep networkRecords m) = true.
Proof.
  induction networkRecords as [|r rs IH]; intros m Hm; simpl; [assumption|].
  now apply IH, requestStep_bounded.
Qed.

(** The invariant after one more task. *)
Lemma taskStep_bounded (jsURLs : JsURLs) (cpuMultiplier : Q) (m : JsMap.t Summary)
    (task : Task) :
  0 <= taskDuration cpuMultiplier task ->
  blockingBounded m = true ->
  blockingBounded (taskStep jsURLs cpuMultiplier m task) = true.
Proof.
  unfold taskDuration. intros Hd Hm. unfold taskStep.
  apply values_set_forallb; [exact Hm|].
  pose proof (orDefault_forallb (fun s => Qle_bool (blockingTime s) (mainThreadTime s)) m (getAttributableURLForTask task jsURLs) eq_refl Hm) as H0.
  cbv beta in H0. apply Qle_bool_iff in H0. apply Qle_bool_iff. simpl.
  destruct (Q.max_spec (selfTime task * cpuMultiplier - 50) 0) as [[_ ->]|[_ ->]]; lra.
Qed.

Lemma tasks_bounded (jsURLs : JsURLs) (cpuMultiplier : Q) (tasks : list Task) :
  durationsNonNegative cpuMultiplier tasks = true ->
  forall m, blockingBounded m = true ->
  blockingBounded (fold_left (taskStep jsURLs cpuMultiplier) tasks m) = true.
Proof.
  induction tasks as [|t ts IH]; intros Hd m Hm; simpl in *; [assumption|].
  apply andb_true_iff in Hd as [Ht Hd]. apply Qle_bool_iff in Ht.
  now apply IH, taskStep_bounded.
Qed.

(** The invariant when a URL is folded into its entity. *)
Lemma addEntry_bounded (st st' : JsMap.t Summary * JsMap.t (list string))
    (entry : string * Summary) :
  addEntry st entry = Normal st' ->
  blockingTime (snd entry) <= mainThreadTime (snd entry) ->
  blockingBounded (fst st) = true -> blockingBounded (fst st') = true.
Proof.
  destruct st as [bE us], entry as [u s]. unfold addEntry.
  destruct (url_host u) as [e|]; [|discriminate].
  intros H. injection H as <-. simpl. intros Hs HbE.
  apply values_set_forallb; [exact HbE|].
  pose proof (orDefault_forallb (fun s => Qle_bool (blockingTime s) (mainThreadTime s)) bE e eq_refl HbE) as H0.
  cbv beta in H0. apply Qle_bool_iff in H0. apply Qle_bool_iff. simpl. lra.
Qed.

Lemma entries_bounded (entries : list (string * Summary)) :
  (forall k s, In (k, s) entries -> blockingTime s <= mainThreadTime s) ->
  forall st st', foldC addEntry entries st = Normal st' ->
  blockingBounded (fst st) = true -> blockingBounded (fst st') = true.
Proof.
  induction entries as [|[k s] entries IH]; intros Hall st st'; simpl.
  - intros H. now injection H as <-.
  - destruct (addEntry st (k, s)) as [st1|] eqn:E; [|discriminate].
    intros H Hst. apply (IH (fun k' s' Hin => Hall k' s' (or_intror Hin)) _ _ H).
    apply (addEntry_bounded _ _ _ E); [|exact Hst].
    apply (Hall k s). now left.
Qed.

(** The loop over the entries ends normally when every key has a host. *)
Lemma entries_parse (entries : list (string * Summary)) :
  allParse (map fst entries) = true ->
  forall st, exists st', foldC addEntry entries st = Normal st'.
Proof.
  induction entries as [|[k s] entries IH]; intros Hp st; simpl in *; [eauto|].
  apply andb_true_iff in Hp as [Hk Hp].
  destruct st as [bE us]. unfold addEntry.
  destruct (url_host k) as [e|]; [|discriminate]. apply IH, Hp.
Qed.

(** [getSummaries] returns when [byURL] is bound and every key has a host. *)
Lemma getSummaries_returns (m : JsMap.t Summary) (networkRecords : list NetworkRecord.t)
    (mainThreadTasks : list Task) (cpuMultiplier : Q) :
  allParse (JsMap.keys (aggregated m networkRecords mainThreadTasks cpuMultiplier)) = true ->
  exists s,
    getSummaries networkRecords mainThreadTasks cpuMultiplier (Some m)
    = (Normal s, Some (byURL s))
    /\ byURL s = aggregated m networkRecords mainThreadTasks cpuMultiplier.
Proof.
  intros Hp. rewrite getSummaries_bound. cbv zeta. unfold JsMap.entries.
  destruct (entries_parse _ Hp (JsMap.empty, JsMap.empty)) as [st ->].
  exists {| byURL := aggregated m networkRecords mainThreadTasks cpuMultiplier;
            byEntity := fst st; urls := snd st |}.
  split; reflexivity.
Qed.

End Bounded.

(** ** Sorting and sums *)

Lemma insert_perm {A : Type} (cmp : A -> A -> Q) (x : A) (l : list A) :
  Permutation (JsArray.insert cmp x l) (x :: l).
Proof.
  induction l as [|y l IH]; simpl; [reflexivity|].
  destruct (Qle_bool (cmp x y) 0); [reflexivity|].
  rewrite IH. apply perm_swap.
Qed.

Lemma sort_perm {A : Type} (cmp : A -> A -> Q) (l : list A) :
  Permutation (JsArray.sort cmp l) l.
Proof.
  unfold JsArray.sort. induction l as [|x l IH]; simpl; [reflexivity|].
  rewrite insert_perm. now constructor.
Qed.

Lemma sort_nil_iff {A : Type} (cmp : A -> A -> Q) (l : list A) :
  JsArray.sort cmp l = [] <-> l = [].
Proof.
  split; intros H.
  - apply Permutation_nil. rewrite <- H. apply sort_perm.
  - now subst.
Qed.

Lemma sumQ_perm (l l' : list Q) : Permutation l l' -> sumQ l == sumQ l'.
Proof.
  induction 1; simpl; lra.
Qed.

Lemma sumQ_app (l l' : list Q) : sumQ (l ++ l') == sumQ l + sumQ l'.
Proof.
  induction l as [|x l IH]; simpl; lra.
Qed.

Lemma sumQ_nonneg (l : list Q) : (forall x, In x l -> 0 <= x) -> 0 <= sumQ l.
Proof.
  induction l as [|x l IH]; intros H; simpl; [lra|].
  pose proof (H x (or_introl eq_refl)).
  pose proof (IH (fun y Hy => H y (or_intror Hy))). lra.
Qed.

Lemma sumQ_firstn_le (l : list Q) (n : nat) :
  (forall x, In x l -> 0 <= x) -> sumQ (firstn n l) <= sumQ l.
Proof.
  revert n. induction l as [|x l IH]; intros [|n] H; simpl; try lra.
  - pose proof (sumQ_nonneg (x :: l) H) as H0. simpl in H0. lra.
  - pose proof (IH n (fun y Hy => H y (or_intror Hy))). lra.
Qed.

(** ** The selection loop of [makeSubItems] *)

(** When the loop is left, [numSubItems] has advanced by some [k] within the
    bound, and [subitemSummary] has grown by the [k] items passed. *)
Lemma selectLoop_spec (minTransferSize : Q) (maxSubItems : nat) (rest : list SubItem) :
  forall numSubItems subitemSummary n' sub',
  selectLoop minTransferSize maxSubItems rest numSubItems subitemSummary = (n', sub') ->
  exists k : nat,
    n' = (numSubItems + k)%nat /\ (k <= List.length rest)%nat
    /\ (n' <= Nat.max numSubItems maxSubItems)%nat
    /\ sub_transferSize sub'
       == sub_transferSize subitemSummary + itemBytes (firstn k rest)
    /\ sub_blockingTime sub'
       == sub_blockingTime subitemSummary + itemBlocking (firstn k rest).
Proof.
  unfold itemBytes, itemBlocking.
  induction rest as [|x rest IH]; intros n sub n' sub'; simpl.
  - intros H. injection H as <- <-. exists 0%nat. simpl. repeat split; try lia; lra.
  - destruct (n <? maxSubItems)%nat eqn:Hlt.
    + destruct (Js.is_zero (item_blockingTime x)
                && Js.ltb (item_transferSize x) minTransferSize).
      * intros H. injection H as <- <-. exists 0%nat. simpl.
        repeat split; try lia; lra.
      * intros H. apply IH in H as (k & -> & Hk & Hmax & Hts & Hbt).
        apply Nat.ltb_lt in Hlt. simpl in Hts, Hbt.
        exists (S k). simpl. repeat split; try lia; lra.
    + intros H. injection H as <- <-. exists 0%nat. simpl.
      repeat split; try lia; lra.
Qed.

(** The state in which [makeSubItems] leaves its loop. *)
Lemma selection_spec (entity : string) (summaries : Summaries) (stats : Summary) :
  let items := candidateItems entity summaries in
  let numSubItems := fst (selection entity summaries stats) in
  let subitemSummary := snd (selection entity summaries stats) in
  (numSubItems <= MAX_SUBITEMS)%nat
  /\ (numSubItems <= List.length items)%nat
  /\ sub_transferSize subitemSummary == itemBytes (JsArray.slice0 numSubItems items)
  /\ sub_blockingTime subitemSummary == itemBlocking (JsArray.slice0 numSubItems items).
Proof.
  cbv zeta. unfold selection.
  destruct (selectLoop _ _ _ _ _) as [n sub] eqn:E.
  apply selectLoop_spec in E as (k & -> & Hk & Hmax & Hts & Hbt).
  cbn [fst snd sub_transferSize sub_blockingTime Nat.add] in *.
  unfold JsArray.slice0. repeat split; try lia; lra.
Qed.

Lemma makeSubItems_unfold (entity : string) (summaries : Summaries) (stats : Summary) :
  makeSubItems entity summaries stats
  = let items := candidateItems entity summaries in
    let numSubItems := fst (selection entity summaries stats) in
    let subitemSummary := snd (selection entity summaries stats) in
    if Js.is_zero (sub_blockingTime subitemSummary)
       && Js.is_zero (sub_transferSize subitemSummary)
    then []
    else if Js.gtb (item_transferSize (remainderOf stats subitemSummary))
                   (minTransferSizeOf stats)
         then (JsArray.slice0 numSubItems items ++ [remainderOf stats subitemSummary])%list
         else JsArray.slice0 numSubItems items.
Proof.
  unfold makeSubItems. now destruct (selection entity summaries stats).
Qed.

Lemma ltb_lt (x y : Q) : Js.ltb x y = true <-> x < y.
Proof.
  unfold Js.ltb. rewrite negb_true_iff. split; intros H.
  - destruct (Qlt_le_dec x y) as [|Hle]; [assumption|].
    apply Qle_bool_iff in Hle. congruence.
  - destruct (Qle_bool y x) eqn:E; [|reflexivity].
    apply Qle_bool_iff in E. lra.
Qed.

Lemma is_zero_iff (x : Q) : Js.is_zero x = true <-> x == 0.
Proof. apply Qeq_bool_iff. Qed.

(** ** The candidates of [makeSubItems] *)

Lemma in_slice0 {A : Type} (n : nat) (l : list A) (x : A) :
  In x (JsArray.slice0 n l) -> In x l.
Proof.
  unfold JsArray.slice0. revert n.
  induction l as [|y l IH]; intros [|n]; simpl; try tauto.
  intros [H|H]; eauto.
Qed.

(** Every candidate is a URL with a positive transfer size. *)
Lemma candidate_inv (entity : string) (summaries : Summaries) (it : SubItem) :
  In it (candidateItems entity summaries) ->
  (exists u, item_url it = Url u) /\ 0 < item_transferSize it.
Proof.
  unfold candidateItems. intros Hin.
  apply (Permutation_in _ (sort_perm _ _)) in Hin.
  apply in_flat_map in Hin as ([u os] & Hf & Hit).
  apply filter_In in Hf as [_ Hf].
  unfold hasTransfer in Hf. unfold toItem in Hit. simpl in *.
  destruct os as [s|]; [|discriminate].
  destruct Hit as [<-|[]]. simpl. split; [eauto|].
  now apply ltb_lt in Hf.
Qed.

Lemma hasRemainder_selected (entity : string) (summaries : Summaries) (n : nat) :
  hasRemainder (JsArray.slice0 n (candidateItems entity summaries)) = false.
Proof.
  unfold hasRemainder.
  destruct (existsb _ _) eqn:E; [|reflexivity].
  apply existsb_exists in E as (it & Hin & Hit).
  apply in_slice0, candidate_inv in Hin as [[u Hu] _].
  rewrite Hu in Hit. discriminate.
Qed.

Lemma hasRemainder_appended (l : list SubItem) (stats : Summary) (sub : SubitemSummary) :
  hasRemainder (l ++ [remainderOf stats sub]) = true.
Proof.
  unfold hasRemainder. rewrite existsb_app. simpl. apply orb_true_r.
Qed.

Lemma itemBytes_selected_le (entity : string) (summaries : Summaries) (n : nat) :
  itemBytes (JsArray.slice0 n (candidateItems entity summaries))
  <= itemBytes (candidateItems entity summaries).
Proof.
  unfold itemBytes, JsArray.slice0. rewrite <- firstn_map.
  apply sumQ_firstn_le. intros x Hx.
  apply in_map_iff in Hx as (it & <- & Hin).
  apply candidate_inv in Hin as [_ H]. lra.
Qed.

(** The candidates weigh no more than the URLs of the entity. *)
Lemma itemBytes_candidates_le (entity : string) (summaries : Summaries) :
  transfersNonNegative summaries = true ->
  itemBytes (candidateItems entity summaries) <= entityTransfer entity summaries.
Proof.
  intros Hnn. unfold candidateItems, entityTransfer, itemBytes.
  rewrite (sumQ_perm _ _ (Permutation_map _ (sort_perm _ _))).
  induction (match JsMap.get (urls summaries) entity with
             | Some l => l | None => [] end) as [|u us IH]; simpl; [lra|].
  unfold hasTransfer at 1, joinURL at 1. simpl.
  destruct (JsMap.get (byURL summaries) u) as [s|] eqn:Eg; simpl.
  - destruct (Js.gtb (transferSize s) 0) eqn:Egt; simpl.
    + unfold joinURL at 1. simpl. rewrite Eg. simpl. lra.
    + assert (0 <= transferSize s); [|lra].
      pose proof (orDefault_forallb (fun s => Qle_bool 0 (transferSize s))
                    (byURL summaries) u eq_refl Hnn) as H.
      rewrite Eg in H. now apply Qle_bool_iff in H.
  - lra.
Qed.

Lemma entityTransfer_nonneg (entity : string) (summaries : Summaries) :
  transfersNonNegative summaries = true -> 0 <= entityTransfer entity summaries.
Proof.
  intros Hnn. unfold entityTransfer. apply sumQ_nonneg. intros x Hx.
  apply in_map_iff in Hx as (u & <- & _).
  pose proof (orDefault_forallb (fun s => Qle_bool 0 (transferSize s))
                (byURL summaries) u eq_refl Hnn) as H.
  now apply Qle_bool_iff in H.
Qed.

(** ** The rows of [audit] *)

Lemma mapEntry_fold (summaries : Summaries) (kept : list (string * Summary)) :
  forall overallSummary rows,
  let st := fold_left (mapEntry summaries) kept (overallSummary, rows) in
  snd st = (rows ++ map (rowOf summaries) kept)%list
  /\ wastedBytes (fst st)
     == wastedBytes overallSummary + sumQ (map (fun e => transferSize (snd e)) kept)
  /\ wastedMs (fst st)
     == wastedMs overallSummary + sumQ (map (fun e => blockingTime (snd e)) kept).
Proof.
  induction kept as [|e kept IH]; intros o rows; simpl.
  - rewrite app_nil_r. repeat split; lra.
  - destruct (IH {| wastedBytes := wastedBytes o + transferSize (snd e);
                    wastedMs := wastedMs o + blockingTime (snd e) |}
                 (rows ++ [rowOf summaries e])%list) as (Hr & Hb & Hm).
    cbv zeta in *. rewrite Hr, Hb, Hm, <- app_assoc. simpl. repeat split; lra.
Qed.

Lemma rowOf_entity (summaries : Summaries) (entry : string * Summary) :
  link_text (row_entity (rowOf summaries entry)) = fst entry
  /\ row_stats (rowOf summaries entry) = snd entry.
Proof. destruct entry. split; reflexivity. Qed.

(** The rows are the kept entries of [byEntity], in sorted order, and
    [overallSummary] is their sum. *)
Lemma buildResults_spec (mainEntity : string) (summaries : Summaries) :
  let kept := filter (keepEntity mainEntity) (JsMap.entries (byEntity summaries)) in
  let overallSummary := fst (buildResults mainEntity summaries) in
  let results := snd (buildResults mainEntity summaries) in
  results = JsArray.sort compareRows (map (rowOf summaries) kept)
  /\ Permutation (rowEntities results) (map fst kept)
  /\ wastedBytes overallSummary == sumQ (map (fun r => transferSize (row_stats r)) results)
  /\ wastedMs overallSummary == sumQ (map (fun r => blockingTime (row_stats r)) results).
Proof.
  cbv zeta. unfold buildResults.
  destruct (mapEntry_fold summaries
              (filter (keepEntity mainEntity) (JsMap.entries (byEntity summaries)))
              {| wastedBytes := 0; wastedMs := 0 |} []) as (Hr & Hb & Hm).
  cbv zeta in *.
  destruct (fold_left _ _ _) as [o rows]. simpl in *. subst rows.
  split; [reflexivity|]. split.
  - unfold rowEntities. rewrite (Permutation_map _ (sort_perm _ _)), map_map.
    erewrite map_ext; [reflexivity|]. intros e. apply rowOf_entity.
  - rewrite Hb, Hm.
    rewrite !(sumQ_perm _ _ (Permutation_map _ (sort_perm _ _))), !map_map.
    split.
    + rewrite (map_ext (fun x => transferSize (row_stats (rowOf summaries x)))
                       (fun e => transferSize (snd e))); [lra|].
      intros e. now destruct (rowOf_entity summaries e) as [_ ->].
    + rewrite (map_ext (fun x => blockingTime (row_stats (rowOf summaries x)))
                       (fun e => blockingTime (snd e))); [lra|].
      intros e. now destruct (rowOf_entity summaries e) as [_ ->].
Qed.

Section AuditFacts.

Context {P : Platform}.

Lemma audit_unfold (finalUrl : string) (networkRecords : list NetworkRecord.t)
    (tasks : list Task) (settings : option Settings) (sc : Scope) :
  audit finalUrl networkRecords tasks settings sc
  = match hostOf finalUrl with
    | Throw e => (Throw e, sc)
    | Normal mainEntity =>
        match getSummaries networkRecords tasks (multiplierOf settings) sc with
        | (Normal summaries, sc') =>
            (Normal (verdict (fst (buildResults mainEntity summaries))
                             (snd (buildResults mainEntity summaries))), sc')
        | (Throw e, sc') => (Throw e, sc')
        end
    end.
Proof.
  unfold audit, bind, lift, ret. destruct (hostOf finalUrl); [|reflexivity].
  fold (multiplierOf settings).
  destruct (getSummaries _ _ _ sc) as [[s|e] sc']; [|reflexivity].
  now destruct (buildResults a s).
Qed.

End AuditFacts.

(** ** What an entity holds *)

Section PerEntity.

Context {P : Platform}.

Variable f : Summary -> Q.
Hypothesis f_add : forall a b,
  f {| mainThreadTime := mainThreadTime a + mainThreadTime b;
       blockingTime := blockingTime a + blockingTime b;
       transferSize := transferSize a + transferSize b |} == f a + f b.

Lemma entity_addEntry (st st' : JsMap.t Summary * JsMap.t (list string))
    (entry : string * Summary) (entity : string) :
  addEntry st entry = Normal st' ->
  f (orDefault (JsMap.get (fst st') entity))
  == f (orDefault (JsMap.get (fst st) entity)) + entitySum f entity [entry].
Proof.
  destruct st as [bE us], entry as [u s]. unfold addEntry, entitySum, hasHost.
  simpl. destruct (url_host u) as [e|]; [|discriminate].
  intros H. injection H as <-. simpl.
  destruct (String.eqb_spec e entity) as [->|Hne]; simpl.
  - rewrite JsMap_get_set_same. simpl. rewrite f_add. lra.
  - rewrite JsMap_get_set_other by congruence. lra.
Qed.

Lemma entity_foldC (entries : list (string * Summary)) (entity : string) :
  forall st st', foldC addEntry entries st = Normal st' ->
  f (orDefault (JsMap.get (fst st') entity))
  == f (orDefault (JsMap.get (fst st) entity)) + entitySum f entity entries.
Proof.
  induction entries as [|entry entries IH]; intros st st'; simpl.
  - intros H. injection H as <-. unfold entitySum. simpl. lra.
  - destruct (addEntry st entry) as [st1|] eqn:E; [|discriminate].
    intros H. rewrite (IH _ _ H), (entity_addEntry _ _ _ entity E).
    unfold entitySum. simpl. destruct (hasHost entity (fst entry)); simpl; lra.
Qed.

End PerEntity.

Section EntityKeys.

Context {P : Platform}.

Lemma addEntry_keeps (st st' : JsMap.t Summary * JsMap.t (list string))
    (entry : string * Summary) (entity : string) :
  addEntry st entry = Normal st' ->
  JsMap.get (fst st) entity <> None -> JsMap.get (fst st') entity <> None.
Proof.
  destruct st as [bE us], entry as [u s]. unfold addEntry.
  destruct (url_host u) as [e|]; [|discriminate].
  intros H. injection H as <-. simpl.
  destruct (String.eqb_spec e entity) as [->|Hne].
  - rewrite JsMap_get_set_same. discriminate.
  - now rewrite JsMap_get_set_other by congruence.
Qed.

Lemma foldC_keeps (entries : list (string * Summary)) (entity : string) :
  forall st st', foldC addEntry entries st = Normal st' ->
  JsMap.get (fst st) entity <> None -> JsMap.get (fst st') entity <> None.
Proof.
  induction entries as [|entry entries IH]; intros st st'; simpl.
  - intros H. now injection H as <-.
  - destruct (addEntry st entry) as [st1|] eqn:E; [|discriminate].
    intros H Hst. apply (IH _ _ H). now apply (addEntry_keeps _ _ _ _ E).
Qed.

(** An entity that hosts a URL of [byURL] has a summary in [byEntity]. *)
Lemma foldC_adds (entries : list (string * Summary)) (entity u : string) (us : Summary) :
  In (u, us) entries -> url_host u = Some entity ->
  forall st st', foldC addEntry entries st = Normal st' ->
  JsMap.get (fst st') entity <> None.
Proof.
  intros Hin Hu.
  induction entries as [|entry entries IH]; intros st st'; simpl; [destruct Hin|].
  destruct (addEntry st entry) as [st1|] eqn:E; [|discriminate].
  intros H. destruct Hin as [->|Hin].
  - apply (foldC_keeps _ _ _ _ H).
    destruct st as [bE ue]. unfold addEntry in E. rewrite Hu in E.
    injection E as <-. simpl. rewrite JsMap_get_set_same. discriminate.
  - apply (IH Hin _ _ H).
Qed.

(** The summary of an entity in the returned [byEntity] is the sum of the
    summaries of its URLs in the returned [byURL]. *)
Lemma byEntity_holds_entity (m : JsMap.t Summary) (networkRecords : list NetworkRecord.t)
    (mainThreadTasks : list Task) (cpuMultiplier : Q) (s : Summaries) (sc : Scope)
    (entity u : string) (us : Summary) :
  getSummaries networkRecords mainThreadTasks cpuMultiplier (Some m) = (Normal s, sc) ->
  In (u, us) (JsMap.entries (byURL s)) -> url_host u = Some entity ->
  exists es,
    JsMap.get (byEntity s) entity = Some es
    /\ transferSize es == entitySum transferSize entity (JsMap.entries (byURL s))
    /\ mainThreadTime es == entitySum mainThreadTime entity (JsMap.entries (byURL s))
    /\ blockingTime es == entitySum blockingTime entity (JsMap.entries (byURL s)).
Proof.
  rewrite getSummaries_bound. cbv zeta.
  destruct (foldC addEntry _ _) as [st|] eqn:E; [|discriminate].
  intros H. injection H as <- _. simpl. intros Hin Hu.
  pose proof (foldC_adds _ _ _ _ Hin Hu _ _ E) as Hget.
  pose proof (entity_foldC transferSize (fun a b => reflexivity _) _ entity _ _ E) as Ht.
  pose proof (entity_foldC mainThreadTime (fun a b => reflexivity _) _ entity _ _ E) as Hm.
  pose proof (entity_foldC blockingTime (fun a b => reflexivity _) _ entity _ _ E) as Hb.
  destruct (JsMap.get (fst st) entity) as [es|]; [|congruence].
  exists es. simpl in *. repeat split; lra.
Qed.

End EntityKeys.

Lemma itemBytes_app (l l' : list SubItem) :
  itemBytes (l ++ l') == itemBytes l + itemBytes l'.
Proof. unfold itemBytes. rewrite map_app. apply sumQ_app. Qed.

(** ** The summaries that [audit] hands to [makeSubItems] *)

Lemma NoDup_keys_set {V : Type} (m : JsMap.t V) (k : string) (v : V) :
  NoDup (JsMap.keys m) -> NoDup (JsMap.keys (JsMap.set m k v)).
Proof.
  induction m as [|[k0 v0] m IH]; simpl; intros Hnd.
  - repeat constructor. intros [].
  - inversion Hnd as [|? ? Hnotin Hnd']; subst.
    destruct (String.eqb_spec k0 k) as [->|Hne]; simpl; [assumption|].
    constructor; [|now apply IH].
    intros Hin. apply JsMap_keys_set in Hin as [Hin|Heq]; [contradiction|congruence].
Qed.

Lemma get_of_entry {V : Type} (m : JsMap.t V) (k : string) (v : V) :
  NoDup (JsMap.keys m) -> In (k, v) (JsMap.entries m) -> JsMap.get m k = Some v.
Proof.
  unfold JsMap.entries.
  induction m as [|[k0 v0] m IH]; simpl; intros Hnd Hin; [destruct Hin|].
  inversion Hnd as [|? ? Hnotin Hnd']; subst.
  destruct Hin as [Heq|Hin].
  - injection Heq as -> ->. now rewrite String.eqb_refl.
  - destruct (String.eqb_spec k0 k) as [->|Hne]; [|now apply IH].
    exfalso. apply Hnotin. unfold JsMap.keys. now apply (in_map fst) in Hin.
Qed.

Section Consistency.

Context {P : Platform}.

Lemma requests_NoDup (networkRecords : list NetworkRecord.t) :
  forall m, NoDup (JsMap.keys m) ->
  NoDup (JsMap.keys (fold_left requestStep networkRecords m)).
Proof.
  induction networkRecords as [|r rs IH]; intros m Hm; simpl; [assumption|].
  apply IH. now apply NoDup_keys_set.
Qed.

Lemma tasks_NoDup (jsURLs : JsURLs) (cpuMultiplier : Q) (tasks : list Task) :
  forall m, NoDup (JsMap.keys m) ->
  NoDup (JsMap.keys (fold_left (taskStep jsURLs cpuMultiplier) tasks m)).
Proof.
  induction tasks as [|t ts IH]; intros m Hm; simpl; [assumption|].
  apply IH. now apply NoDup_keys_set.
Qed.

Lemma requests_nonneg (networkRecords : list NetworkRecord.t) :
  forallb (fun r => Qle_bool 0 (NetworkRecord.transferSize r)) networkRecords = true ->
  forall m,
  forallb (fun s => Qle_bool 0 (transferSize s)) (JsMap.values m) = true ->
  forallb (fun s => Qle_bool 0 (transferSize s))
    (JsMap.values (fold_left requestStep networkRecords m)) = true.
Proof.
  induction networkRecords as [|r rs IH]; intros Hr m Hm; simpl in *; [assumption|].
  apply andb_true_iff in Hr as [Hr0 Hr]. apply (IH Hr).
  unfold requestStep. apply values_set_forallb; [exact Hm|].
  pose proof (orDefault_forallb (fun s => Qle_bool 0 (transferSize s)) m
                (NetworkRecord.url r) eq_refl Hm) as H0.
  cbv beta in H0. apply Qle_bool_iff in H0, Hr0. apply Qle_bool_iff. simpl. lra.
Qed.

Lemma tasks_nonneg (jsURLs : JsURLs) (cpuMultiplier : Q) (tasks : list Task) :
  forall m,
  forallb (fun s => Qle_bool 0 (transferSize s)) (JsMap.values m) = true ->
  forallb (fun s => Qle_bool 0 (transferSize s))
    (JsMap.values (fold_left (taskStep jsURLs cpuMultiplier) tasks m)) = true.
Proof.
  induction tasks as [|t ts IH]; intros m Hm; simpl; [assumption|].
  apply IH. unfold taskStep. apply values_set_forallb; [exact Hm|].
  exact (orDefault_forallb (fun s => Qle_bool 0 (transferSize s)) m _ eq_refl Hm).
Qed.

(** The URLs listed for an entity are the keys of the entries with that host,
    in the order of the entries. *)
Lemma urls_foldC (entries : list (string * Summary)) (entity : string) :
  forall st st', foldC addEntry entries st = Normal st' ->
  match JsMap.get (snd st') entity with Some l => l | None => [] end
  = (match JsMap.get (snd st) entity with Some l => l | None => [] end
     ++ map fst (filter (fun e => hasHost entity (fst e)) entries))%list.
Proof.
  induction entries as [|[u us] entries IH]; intros st st'; simpl.
  - intros H. injection H as <-. now rewrite app_nil_r.
  - destruct (addEntry st (u, us)) as [st1|] eqn:E; [|discriminate].
    intros H. rewrite (IH _ _ H). clear IH H.
    destruct st as [bE ue]. unfold addEntry in E. unfold hasHost.
    destruct (url_host u) as [e|]; [|discriminate].
    injection E as <-. simpl.
    destruct (String.eqb_spec e entity) as [->|Hne]; simpl.
    + rewrite JsMap_get_set_same. now rewrite <- app_assoc.
    + now rewrite JsMap_get_set_other by congruence.
Qed.

Lemma byEntity_NoDup (entries : list (string * Summary)) :
  forall st st', foldC addEntry entries st = Normal st' ->
  NoDup (JsMap.keys (fst st)) -> NoDup (JsMap.keys (fst st')).
Proof.
  induction entries as [|[u us] entries IH]; intros st st'; simpl.
  - intros H. now injection H as <-.
  - destruct (addEntry st (u, us)) as [st1|] eqn:E; [|discriminate].
    intros H Hnd. apply (IH _ _ H).
    destruct st as [bE ue]. unfold addEntry in E.
    destruct (url_host u) as [e|]; [|discriminate].
    injection E as <-. simpl. now apply NoDup_keys_set.
Qed.

Lemma entityTransfer_entitySum (entity : string) (m : JsMap.t Summary) (l : list (string * Summary)) :
  NoDup (JsMap.keys m) -> incl l (JsMap.entries m) ->
  sumQ (map (fun u => transferSize (orDefault (JsMap.get m u)))
          (map fst (filter (fun e => hasHost entity (fst e)) l)))
  == entitySum transferSize entity l.
Proof.
  intros Hnd. unfold entitySum.
  induction l as [|[u us] l IH]; intros Hincl; simpl; [lra|].
  assert (Hl : incl l (JsMap.entries m)) by (intros x Hx; apply Hincl; now right).
  destruct (hasHost entity u); simpl; [|now apply IH].
  rewrite (get_of_entry m u us Hnd) by (apply Hincl; now left).
  simpl. rewrite (IH Hl). lra.
Qed.

(** In the summaries that [getSummaries] returns, the summary of an entity is
    the total of the URLs listed for it, the keys of [byEntity] are distinct,
    and no size is negative if none was in the input. *)
Lemma getSummaries_consistent (m : JsMap.t Summary) (networkRecords : list NetworkRecord.t)
    (mainThreadTasks : list Task) (cpuMultiplier : Q) (s : Summaries) (sc : Scope) :
  NoDup (JsMap.keys m) ->
  getSummaries networkRecords mainThreadTasks cpuMultiplier (Some m) = (Normal s, sc) ->
  NoDup (JsMap.keys (byEntity s))
  /\ (forall entity,
        transferSize (orDefault (JsMap.get (byEntity s) entity))
        == entityTransfer entity s)
  /\ (forallb (fun r => Qle_bool 0 (NetworkRecord.transferSize r)) networkRecords = true ->
      forallb (fun s => Qle_bool 0 (transferSize s)) (JsMap.values m) = true ->
      transfersNonNegative s = true).
Proof.
  intros Hnd. rewrite getSummaries_bound. cbv zeta.
  destruct (foldC addEntry _ _) as [st|] eqn:E; [|discriminate].
  intros H. injection H as <- _. simpl.
  assert (Hnd' : NoDup (JsMap.keys
                          (aggregated m networkRecords mainThreadTasks cpuMultiplier))).
  { unfold aggregated. now apply tasks_NoDup, requests_NoDup. }
  split; [|split].
  - apply (byEntity_NoDup _ _ _ E). constructor.
  - intros entity. unfold entityTransfer. simpl.
    rewrite (urls_foldC _ entity _ _ E). simpl.
    rewrite (entity_foldC transferSize (fun a b => reflexivity _) _ entity _ _ E).
    simpl. rewrite entityTransfer_entitySum; [lra | exact Hnd' | apply incl_refl].
  - intros Hr Hm. unfold transfersNonNegative, aggregated. simpl.
    now apply tasks_nonneg, requests_nonneg.
Qed.

(** So each row that [audit] builds from returned summaries lists sub-items
    whose bytes do not exceed the bytes of the row. *)
Lemma rows_subItems_bounded (m : JsMap.t Summary) (networkRecords : list NetworkRecord.t)
    (mainThreadTasks : list Task) (cpuMultiplier : Q) (s : Summaries) (sc : Scope)
    (mainEntity : string) (row : Row) :
  NoDup (JsMap.keys m) ->
  forallb (fun r => Qle_bool 0 (NetworkRecord.transferSize r)) networkRecords = true ->
  forallb (fun s => Qle_bool 0 (transferSize s)) (JsMap.values m) = true ->
  getSummaries networkRecords mainThreadTasks cpuMultiplier (Some m) = (Normal s, sc) ->
  In row (snd (buildResults mainEntity s)) ->
  itemBytes (row_subItems row) <= transferSize (row_stats row)
  /\ (List.length (row_subItems row) <= 101)%nat.
Proof.
  intros Hnd Hr Hm Hs Hin.
  destruct (getSummaries_consistent _ _ _ _ _ _ Hnd Hs) as (HndE & Hcons & Hnn).
  specialize (Hnn Hr Hm).
  destruct (buildResults_spec mainEntity s) as (Hres & _). cbv zeta in Hres.
  rewrite Hres in Hin. apply (Permutation_in _ (sort_perm _ _)) in Hin.
  apply in_map_iff in Hin as ([entity stats] & <- & Hin).
  apply filter_In in Hin as [Hin _]. simpl.
  pose proof (Hcons entity) as Hc.
  rewrite (get_of_entry _ _ _ HndE Hin) in Hc. simpl in Hc.
  rewrite makeSubItems_unfold. cbv zeta.
  destruct (selection_spec entity s stats) as (Hmax & _ & Hts & _).
  cbv zeta in Hmax, Hts. unfold MAX_SUBITEMS in Hmax.
  pose proof (itemBytes_selected_le entity s (fst (selection entity s stats))) as Hsel.
  pose proof (itemBytes_candidates_le entity s Hnn) as Hcand.
  pose proof (entityTransfer_nonneg entity s Hnn) as H0.
  assert (Hlen : (List.length (JsArray.slice0 (fst (selection entity s stats))
                                 (candidateItems entity s)) <= 100)%nat).
  { unfold JsArray.slice0. rewrite length_firstn. lia. }
  destruct (Js.is_zero _ && Js.is_zero _).
  - unfold itemBytes. simpl. split; [lra|lia].
  - destruct (Js.gtb _ _).
    + rewrite itemBytes_app, length_app. unfold itemBytes at 2. simpl. split; [lra|lia].
    + split; [lra|lia].
Qed.

End Consistency.

(** ** What the task loop adds to one URL *)

Section TaskLoop.

Context {P : Platform}.

Lemma taskStep_at (jsURLs : JsURLs) (cpuMultiplier : Q) (m : JsMap.t Summary)
    (t : Task) (u : string) :
  let before := orDefault (JsMap.get m u) in
  let after := orDefault (JsMap.get (taskStep jsURLs cpuMultiplier m t) u) in
  if String.eqb (getAttributableURLForTask t jsURLs) u
  then blockingTime after == blockingTime before + clipped cpuMultiplier t
       /\ mainThreadTime after == mainThreadTime before + taskDuration cpuMultiplier t
  else blockingTime after == blockingTime before
       /\ mainThreadTime after == mainThreadTime before.
Proof.
  cbv zeta. unfold taskStep, clipped, taskDuration.
  destruct (String.eqb_spec (getAttributableURLForTask t jsURLs) u) as [->|Hne].
  - rewrite JsMap_get_set_same. simpl. split; lra.
  - rewrite JsMap_get_set_other by congruence. split; lra.
Qed.

Lemma tasks_per_url (jsURLs : JsURLs) (cpuMultiplier : Q) (tasks : list Task) (u : string) :
  forall m,
  let attributed :=
    filter (fun t => String.eqb (getAttributableURLForTask t jsURLs) u) tasks in
  let after :=
    orDefault (JsMap.get (fold_left (taskStep jsURLs cpuMultiplier) tasks m) u) in
  blockingTime after
  == blockingTime (orDefault (JsMap.get m u)) + sumQ (map (clipped cpuMultiplier) attributed)
  /\ mainThreadTime after
     == mainThreadTime (orDefault (JsMap.get m u))
        + sumQ (map (taskDuration cpuMultiplier) attributed).
Proof.
  induction tasks as [|t ts IH]; intros m; simpl; [split; lra|].
  destruct (IH (taskStep jsURLs cpuMultiplier m t)) as [Hb Hm].
  cbv zeta in *. rewrite Hb, Hm.
  pose proof (taskStep_at jsURLs cpuMultiplier m t u) as Hstep. cbv zeta in Hstep.
  destruct (String.eqb (getAttributableURLForTask t jsURLs) u);
    destruct Hstep as [-> ->]; simpl; split; lra.
Qed.

End TaskLoop.

(** ** The scenarios of the specification, with [byURL] bound to an empty [Map] *)

(** One record of [a.com], no task, a page of [b.com]: one row, a pass. *)
Lemma scenario_one_record :
  match fst (@audit Example.platform "https://b.com/" Example.recordsA [] None
               Example.freshScope) with
  | Normal r =>
      score r = 1 /\ notApplicable r = false
      /\ map (fun row => (link_text (row_entity row), row_stats row)) (resultRows r)
         = [("a.com"%string, mkSummary 0 0 10000)]
  | Throw _ => False
  end.
Proof. vm_compute. repeat split. Qed.

(** Three tasks of 100 ms: 300 ms of main-thread time, 150 ms of blocking
    time, a pass; with the multiplier 4, 1050 ms of blocking time, a fail. *)
Lemma scenario_three_tasks :
  match fst (@audit Example.platform "https://b.com/" [] Example.tasksA None
               Example.freshScope),
        fst (@audit Example.platform "https://b.com/" [] Example.tasksA
               (Some (mkSettings "simulate" 4)) Example.freshScope) with
  | Normal r1, Normal r4 =>
      score r1 = 1 /\ map row_stats (resultRows r1) = [mkSummary 300 150 0]
      /\ score r4 = 0 /\ map row_stats (resultRows r4) = [mkSummary 1200 1050 0]
  | _, _ => False
  end.
Proof. vm_compute. repeat split. Qed.

(** Only the first party has a cost: no row, not applicable. *)
Lemma scenario_first_party_only :
  fst (@audit Example.platform "https://a.com/" Example.recordsA Example.tasksA None
         Example.freshScope)
  = Normal {| score := 1; notApplicable := true; displayValue := None; details := None |}.
Proof. vm_compute. reflexivity. Qed.

(** A task that Lighthouse attributes to no URL makes the pass throw. *)
Lemma scenario_unattributable :
  fst (@getSummaries Example.platform Example.recordsA
         [Example.mkTask 100 "Unattributable"] 1 Example.freshScope)
  = Throw (TypeError "Invalid URL").
Proof. vm_compute. reflexivity. Qed.

(** * The claims *)

(** ** The missing declaration of [byURL] *)

(** C5.  [getSummaries] does not build [byURL] within the invocation: the
    identifier is never declared.  In the scope of the module, where nothing
    binds it, every invocation throws [ReferenceError], whatever the records,
    the tasks and the multiplier, for instance for [getSummaries([], [], 1)].
    Where the host binds [byURL] to a [Map], the function aggregates into the
    [Map] it finds and leaves it bound, so what one invocation adds is found
    by the next. *)
Theorem getSummaries_byURL_not_local :
  (forall (P : Platform) (networkRecords : list NetworkRecord.t)
          (mainThreadTasks : list Task) (cpuMultiplier : Q),
     getSummaries networkRecords mainThreadTasks cpuMultiplier moduleScope
     = (Throw (ReferenceError "byURL"), moduleScope))
  /\ (forall (P : Platform) (m : JsMap.t Summary) (networkRecords : list NetworkRecord.t)
             (mainThreadTasks : list Task) (cpuMultiplier : Q),
        snd (getSummaries networkRecords mainThreadTasks cpuMultiplier (Some m))
        = Some (aggregated m networkRecords mainThreadTasks cpuMultiplier))
  /\ @getSummaries Example.platform [] [] 1 moduleScope
     = (Throw (ReferenceError "byURL"), moduleScope).
Proof.
  split; [|split].
  - intros. apply getSummaries_unbound.
  - intros. now rewrite getSummaries_bound.
  - reflexivity.
Qed.

(** If [byURL] were a new [Map] at each invocation, the totals would be
    conserved: this is what the loops compute from an empty [Map]. *)
Lemma getSummaries_conserves_from_empty_map {P : Platform}
    (networkRecords : list NetworkRecord.t) (mainThreadTasks : list Task)
    (cpuMultiplier : Q) (s : Summaries) (sc : Scope) :
  getSummaries networkRecords mainThreadTasks cpuMultiplier (Some JsMap.empty)
  = (Normal s, sc) ->
  total transferSize (byEntity s) == sumQ (map NetworkRecord.transferSize networkRecords)
  /\ total mainThreadTime (byEntity s)
     == sumQ (map (taskDuration cpuMultiplier) mainThreadTasks)
  /\ total blockingTime (byEntity s)
     == sumQ (map (clipped cpuMultiplier) mainThreadTasks).
Proof.
  intros H. destruct (getSummaries_totals _ _ _ _ _ _ H) as (Ht & Hm & Hb).
  unfold total in *. simpl in *. repeat split; lra.
Qed.

(** C1.  The totals are not conserved by the code as it is.  For the one
    record [{url: "https://a.com/x.js", transferSize: 10000}] and no task, in
    the scope of the module the invocation throws and returns no summaries.
    In a scope where the host has bound [byURL] to an empty [Map], a first
    invocation returns 10000 bytes over all entities; a second invocation
    with the same record, in the scope the first one left, returns 20000
    bytes over all entities for records that sum to 10000. *)
Theorem getSummaries_totals_not_conserved :
  @getSummaries Example.platform Example.recordsA [] 1 moduleScope
  = (Throw (ReferenceError "byURL"), moduleScope)
  /\ exists s1 sc1 s2 sc2,
       @getSummaries Example.platform Example.recordsA [] 1 Example.freshScope
       = (Normal s1, sc1)
       /\ total transferSize (byEntity s1) == 10000
       /\ @getSummaries Example.platform Example.recordsA [] 1 sc1 = (Normal s2, sc2)
       /\ total transferSize (byEntity s2) == 20000
       /\ sumQ (map NetworkRecord.transferSize Example.recordsA) == 10000.
Proof.
  split; [reflexivity|].
  do 4 eexists. split; [vm_compute; reflexivity|].
  split; [vm_compute; reflexivity|].
  split; [vm_compute; reflexivity|].
  split; vm_compute; reflexivity.
Qed.

(** ** Blocking time *)

(** C4.  A task processed by the loop of [getSummaries] adds
    [max(selfTime * cpuMultiplier - 50, 0)] to the [blockingTime] of the URL
    it is attributed to, which is never negative, and the whole scaled
    duration to its [mainThreadTime].  What the URL held before is read off
    the [Map] itself: the fields of its entry, or zero when the URL is not a
    key.  The [transferSize] of that URL and the summaries of the other URLs
    are left as they are. *)
Theorem addTask_blocking_contribution :
  forall (P : Platform) (jsURLs : JsURLs) (cpuMultiplier : Q) (task : Task)
         (m : JsMap.t Summary),
  let u := getAttributableURLForTask task jsURLs in
  let d := selfTime task * cpuMultiplier in
  let blockingBefore :=
    match JsMap.get m u with Some s => blockingTime s | None => 0 end in
  let mainThreadBefore :=
    match JsMap.get m u with Some s => mainThreadTime s | None => 0 end in
  let transferBefore :=
    match JsMap.get m u with Some s => transferSize s | None => 0 end in
  exists m' after,
    addTask jsURLs cpuMultiplier task (Some m) = (Normal tt, Some m')
    /\ JsMap.get m' u = Some after
    /\ blockingTime after - blockingBefore == Qmax (d - 50) 0
    /\ (50 <= d -> blockingTime after == blockingBefore + (d - 50))
    /\ (d <= 50 -> blockingTime after == blockingBefore)
    /\ blockingBefore <= blockingTime after
    /\ mainThreadTime after == mainThreadBefore + d
    /\ transferSize after = transferBefore
    /\ forall u', u' <> u -> JsMap.get m' u' = JsMap.get m u'.
Proof.
  intros P jsURLs cpuMultiplier task m u d blockingBefore mainThreadBefore
    transferBefore.
  eexists. eexists. split; [apply addTask_bound|].
  unfold taskStep. fold u. fold d.
  split; [apply JsMap_get_set_same|].
  unfold blockingBefore, mainThreadBefore, transferBefore.
  destruct (Q.max_spec (d - 50) 0) as [[Hlt Hmax]|[Hle Hmax]];
    destruct (JsMap.get m u) as [s|]; simpl;
    (repeat split; try reflexivity; try lra; try (rewrite ?Hmax; lra);
     intros u' Hu'; now apply JsMap_get_set_other).
Qed.

(** A URL that holds 700 ms of blocking time and is given a task of 400 ms
    holds 1050 ms afterwards: the task's part is added, not written over. *)
Lemma addTask_adds_to_entry :
  @addTask Example.platform [] 1 (Example.mkTask 400 "https://a.com/x.js")
    (Some [("https://a.com/x.js"%string, mkSummary 800 700 10000)])
  = (Normal tt, Some [("https://a.com/x.js"%string, mkSummary 1200 1050 10000)]).
Proof. vm_compute. reflexivity. Qed.

(** C9.  When [byURL] is bound to a [Map] whose summaries satisfy
    [blockingTime <= mainThreadTime] (an empty [Map] does), no task has a
    negative scaled duration and every key has a host, [getSummaries]
    returns, and every summary of [byURL] and of [byEntity] satisfies
    [blockingTime <= mainThreadTime]; so does the [Map] after each task. *)
Theorem summaries_blocking_le_mainThread :
  forall (P : Platform) (m : JsMap.t Summary) (networkRecords : list NetworkRecord.t)
         (mainThreadTasks : list Task) (cpuMultiplier : Q),
  blockingBounded m = true ->
  durationsNonNegative cpuMultiplier mainThreadTasks = true ->
  allParse (JsMap.keys (aggregated m networkRecords mainThreadTasks cpuMultiplier)) = true ->
  exists s,
    getSummaries networkRecords mainThreadTasks cpuMultiplier (Some m)
    = (Normal s, Some (byURL s))
    /\ (forall u us, In (u, us) (JsMap.entries (byURL s)) ->
          blockingTime us <= mainThreadTime us)
    /\ (forall e es, In (e, es) (JsMap.entries (byEntity s)) ->
          blockingTime es <= mainThreadTime es)
    /\ (forall k us u,
          In (u, us) (JsMap.entries
                        (fold_left (taskStep (getJavaScriptURLs networkRecords) cpuMultiplier)
                           (firstn k mainThreadTasks)
                           (fold_left requestStep networkRecords m))) ->
          blockingTime us <= mainThreadTime us).
Proof.
  intros P m rs ts mult Hm Hd Hp.
  destruct (getSummaries_returns m rs ts mult Hp) as (s & Hs & Hby).
  exists s. split; [exact Hs|].
  assert (Hurl : forall u us, In (u, us) (JsMap.entries (byURL s)) ->
                   blockingTime us <= mainThreadTime us).
  { intros u us Hin. apply Qle_bool_iff.
    apply (forallb_values_entries
             (fun s => Qle_bool (blockingTime s) (mainThreadTime s)) (byURL s)) with (k := u);
      [|exact Hin].
    rewrite Hby. unfold aggregated.
    apply tasks_bounded; [exact Hd|]. now apply requests_bounded. }
  split; [exact Hurl|]. split.
  - intros e es Hin. apply Qle_bool_iff.
    apply (forallb_values_entries
             (fun s => Qle_bool (blockingTime s) (mainThreadTime s)) (byEntity s)) with (k := e);
      [|exact Hin].
    rewrite getSummaries_bound in Hs. cbv zeta in Hs.
    destruct (foldC addEntry _ _) as [st|] eqn:E; [|discriminate].
    injection Hs as Hs. rewrite <- Hs in Hurl |- *. simpl in *.
    apply (entries_bounded _ Hurl _ _ E). reflexivity.
  - intros k us u Hin. apply Qle_bool_iff.
    apply (forallb_values_entries
             (fun s => Qle_bool (blockingTime s) (mainThreadTime s)) _ ) with (k := u) in Hin;
      [exact Hin|].
    apply tasks_bounded; [now apply forallb_firstn|]. now apply requests_bounded.
Qed.

Lemma summaries_blocking_le_mainThread_witness :
  exists s,
    @getSummaries Example.platform Example.recordsA Example.tasksA 4 Example.freshScope
    = (Normal s, Some (byURL s))
    /\ (forall e es, In (e, es) (JsMap.entries (byEntity s)) ->
          blockingTime es <= mainThreadTime es).
Proof.
  destruct (summaries_blocking_le_mainThread Example.platform JsMap.empty
              Example.recordsA Example.tasksA 4 eq_refl eq_refl eq_refl)
    as (s & Hs & _ & He & _).
  exists s. split; [exact Hs | exact He].
Defined.

(** ** The verdict and the first party *)

Lemma resultRows_verdict (overallSummary : OverallSummary) (results : list Row) :
  resultRows (verdict overallSummary results) = results.
Proof. now destruct results. Qed.

Lemma filter_all {A : Type} (p : A -> bool) (l : list A) :
  (forall x, p x = true) -> filter p l = l.
Proof.
  intros H. induction l as [|x l IH]; simpl; [reflexivity|].
  now rewrite H, IH.
Qed.

Lemma keepEntity_named (mainEntity : string) (entry : string * Summary) :
  mainEntity <> ""%string ->
  keepEntity mainEntity entry = negb (String.eqb mainEntity (fst entry)).
Proof.
  intros H. unfold keepEntity, Js.truthy.
  destruct (String.eqb_spec mainEntity ""); [contradiction|reflexivity].
Qed.

Lemma keepEntity_keys (mainEntity : string) (l : list (string * Summary)) :
  mainEntity <> ""%string ->
  map fst (filter (keepEntity mainEntity) l)
  = filter (fun e => negb (String.eqb mainEntity e)) (map fst l).
Proof.
  intros Hne. induction l as [|[e es] l IH]; simpl; [reflexivity|].
  rewrite (keepEntity_named _ _ Hne). simpl.
  destruct (String.eqb mainEntity e); simpl; now rewrite IH.
Qed.

(** C2.  When the final URL has a host and [getSummaries] returns, [audit]
    returns a result [r].  If there is at least one row (an entity of
    [byEntity] that the first-party filter keeps), [r] is not flagged
    not-applicable and its score is 1 exactly when the accumulated
    [wastedMs], the sum of the rows' blocking times, is at most 250, and 0
    otherwise.  If there is no row, [r] is [{score: 1, notApplicable: true}],
    which differs from every result of the scored branch. *)
Theorem audit_verdict :
  forall (P : Platform) (finalUrl : string) (networkRecords : list NetworkRecord.t)
         (tasks : list Task) (settings : option Settings) (sc : Scope)
         (mainEntity : string) (s : Summaries) (sc' : Scope),
  url_host finalUrl = Some mainEntity ->
  getSummaries networkRecords tasks (multiplierOf settings) sc = (Normal s, sc') ->
  let overallSummary := fst (buildResults mainEntity s) in
  let results := snd (buildResults mainEntity s) in
  exists r,
    audit finalUrl networkRecords tasks settings sc = (Normal r, sc')
    /\ Permutation (rowEntities results)
         (map fst (filter (keepEntity mainEntity) (JsMap.entries (byEntity s))))
    /\ wastedMs overallSummary
       == sumQ (map (fun row => blockingTime (row_stats row)) results)
    /\ (results <> [] ->
          notApplicable r = false /\ resultRows r = results
          /\ (score r = 1 <-> wastedMs overallSummary <= 250)
          /\ (score r = 0 <-> ~ wastedMs overallSummary <= 250))
    /\ (results = [] ->
          r = {| score := 1; notApplicable := true;
                 displayValue := None; details := None |}
          /\ forall o row rows, r <> verdict o (row :: rows)).
Proof.
  intros P finalUrl rs ts settings sc mainEntity s sc' Hh Hs overallSummary results.
  exists (verdict overallSummary results).
  split.
  { rewrite audit_unfold. unfold hostOf. now rewrite Hh, Hs. }
  destruct (buildResults_spec mainEntity s) as (_ & Hperm & _ & Hms).
  split; [exact Hperm|]. split; [exact Hms|]. split.
  - intros Hne. destruct results as [|row rows] eqn:E; [congruence|]. simpl.
    split; [reflexivity|]. split; [reflexivity|].
    unfold PASS_THRESHOLD_IN_MS, Js.leb.
    destruct (Qle_bool (wastedMs overallSummary) 250) eqn:El; simpl.
    + apply Qle_bool_iff in El. split; split; intros H;
        try reflexivity; try assumption; try discriminate; contradiction.
    + assert (~ wastedMs overallSummary <= 250).
      { intros H. apply Qle_bool_iff in H. congruence. }
      split; split; intros H'; try reflexivity; try assumption;
        try discriminate; contradiction.
  - intros ->. simpl. split; [reflexivity|]. intros o row rows. discriminate.
Qed.

Lemma audit_verdict_witness :
  exists r sc',
    @audit Example.platform "https://b.com/" Example.recordsA Example.tasksA
      (Some (mkSettings "simulate" 4)) Example.freshScope = (Normal r, sc')
    /\ score r = 0 /\ notApplicable r = false.
Proof.
  assert (Hs : @getSummaries Example.platform Example.recordsA Example.tasksA
                 (multiplierOf (Some (mkSettings "simulate" 4))) Example.freshScope
               = (Normal Example.summariesA4, Some (byURL Example.summariesA4)))
    by reflexivity.
  destruct (audit_verdict Example.platform "https://b.com/" Example.recordsA
              Example.tasksA (Some (mkSettings "simulate" 4)) Example.freshScope
              "b.com" Example.summariesA4 (Some (byURL Example.summariesA4))
              eq_refl Hs) as (r & Hr & _ & _ & Hrows & _).
  exists r, (Some (byURL Example.summariesA4)). split; [exact Hr|].
  destruct Hrows as (Hna & _ & _ & H0); [vm_compute; discriminate|].
  split; [|exact Hna].
  apply H0. vm_compute. intros H. apply H. reflexivity.
Defined.

(** C3, as stated, fails: for a page whose final URL has an empty host
    ([file:///index.html]) and a record of [file:///app.js], with [byURL]
    bound to an empty [Map], the entity with the empty host, which is the host
    of the final URL, is among the rows. *)
Lemma first_party_row_when_host_empty :
  ~ (forall (P : Platform) (finalUrl : string) (networkRecords : list NetworkRecord.t)
            (tasks : list Task) (settings : option Settings) (sc : Scope)
            (mainEntity : string) (r : AuditResult) (sc' : Scope),
       url_host finalUrl = Some mainEntity ->
       audit finalUrl networkRecords tasks settings sc = (Normal r, sc') ->
       ~ In mainEntity (rowEntities (resultRows r))).
Proof.
  intros H.
  apply (H Example.platform Example.filePage Example.fileRecords [] None
           Example.freshScope ""%string _ _ eq_refl eq_refl).
  vm_compute. now left.
Qed.

(** C3, amended.  When the host of the final URL is not empty, it is not
    among the entities of the rows: the rows are the entities of [byEntity]
    other than that host.  Its contributions are computed all the same: if
    a URL of [byURL] has that host, [byEntity] holds a summary for it, the
    sum of the summaries of its URLs. *)
Theorem first_party_excluded :
  forall (P : Platform) (finalUrl : string) (networkRecords : list NetworkRecord.t)
         (tasks : list Task) (settings : option Settings) (m : JsMap.t Summary)
         (mainEntity : string) (s : Summaries) (sc' : Scope),
  url_host finalUrl = Some mainEntity ->
  mainEntity <> ""%string ->
  getSummaries networkRecords tasks (multiplierOf settings) (Some m) = (Normal s, sc') ->
  exists r,
    audit finalUrl networkRecords tasks settings (Some m) = (Normal r, sc')
    /\ ~ In mainEntity (rowEntities (resultRows r))
    /\ Permutation (rowEntities (resultRows r))
         (filter (fun e => negb (String.eqb mainEntity e)) (JsMap.keys (byEntity s)))
    /\ (forall u us, In (u, us) (JsMap.entries (byURL s)) ->
          url_host u = Some mainEntity ->
          exists es,
            JsMap.get (byEntity s) mainEntity = Some es
            /\ transferSize es == entitySum transferSize mainEntity (JsMap.entries (byURL s))
            /\ mainThreadTime es
               == entitySum mainThreadTime mainEntity (JsMap.entries (byURL s))
            /\ blockingTime es
               == entitySum blockingTime mainEntity (JsMap.entries (byURL s))).
Proof.
  intros P finalUrl rs ts settings m mainEntity s sc' Hh Hne Hs.
  exists (verdict (fst (buildResults mainEntity s)) (snd (buildResults mainEntity s))).
  split.
  { rewrite audit_unfold. unfold hostOf. now rewrite Hh, Hs. }
  rewrite resultRows_verdict.
  destruct (buildResults_spec mainEntity s) as (_ & Hperm & _).
  unfold JsMap.entries in Hperm. rewrite (keepEntity_keys _ _ Hne) in Hperm.
  fold (JsMap.keys (byEntity s)) in Hperm.
  split; [|split; [exact Hperm|]].
  - intros Hin. apply (Permutation_in _ Hperm) in Hin.
    apply filter_In in Hin as [_ Hin]. now rewrite String.eqb_refl in Hin.
  - intros u us Hin Hu. exact (byEntity_holds_entity _ _ _ _ _ _ _ _ _ Hs Hin Hu).
Qed.

Lemma first_party_excluded_witness :
  exists r sc',
    @audit Example.platform "https://a.com/" Example.recordsA Example.tasksA
      (Some (mkSettings "simulate" 4)) Example.freshScope = (Normal r, sc')
    /\ ~ In "a.com"%string (rowEntities (resultRows r))
    /\ exists es, JsMap.get (byEntity Example.summariesA4) "a.com" = Some es
                  /\ blockingTime es == 1050.
Proof.
  assert (Hs : @getSummaries Example.platform Example.recordsA Example.tasksA
                 (multiplierOf (Some (mkSettings "simulate" 4))) Example.freshScope
               = (Normal Example.summariesA4, Some (byURL Example.summariesA4)))
    by reflexivity.
  assert (Hne : "a.com"%string <> ""%string) by discriminate.
  destruct (first_party_excluded Example.platform "https://a.com/" Example.recordsA
              Example.tasksA (Some (mkSettings "simulate" 4)) JsMap.empty
              "a.com" Example.summariesA4 (Some (byURL Example.summariesA4))
              eq_refl Hne Hs) as (r & Hr & Hnot & _ & Hes).
  exists r, (Some (byURL Example.summariesA4)).
  split; [exact Hr|]. split; [exact Hnot|].
  destruct (Hes "https://a.com/x.js"%string (mkSummary 1200 1050 10000))
    as (es & Hget & _ & _ & Hb); [now left | reflexivity |].
  exists es. split; [exact Hget|]. rewrite Hb. vm_compute. reflexivity.
Defined.

(** C10.  When the final URL has the empty host, the filter keeps every
    entry of [byEntity]: the rows are the entities of [byEntity], all of
    them, and an entity with the empty host is among the rows of the
    result. *)
Theorem empty_host_filters_nothing :
  forall (P : Platform) (finalUrl : string) (networkRecords : list NetworkRecord.t)
         (tasks : list Task) (settings : option Settings) (sc : Scope)
         (s : Summaries) (sc' : Scope),
  url_host finalUrl = Some ""%string ->
  getSummaries networkRecords tasks (multiplierOf settings) sc = (Normal s, sc') ->
  exists r,
    audit finalUrl networkRecords tasks settings sc = (Normal r, sc')
    /\ filter (keepEntity "") (JsMap.entries (byEntity s)) = JsMap.entries (byEntity s)
    /\ Permutation (rowEntities (resultRows r)) (JsMap.keys (byEntity s))
    /\ List.length (resultRows r) = List.length (JsMap.entries (byEntity s))
    /\ (In ""%string (JsMap.keys (byEntity s)) ->
        In ""%string (rowEntities (resultRows r))).
Proof.
  intros P finalUrl rs ts settings sc s sc' Hh Hs.
  exists (verdict (fst (buildResults "" s)) (snd (buildResults "" s))).
  split.
  { rewrite audit_unfold. unfold hostOf. now rewrite Hh, Hs. }
  rewrite resultRows_verdict.
  assert (Hall : filter (keepEntity "") (JsMap.entries (byEntity s))
                 = JsMap.entries (byEntity s)).
  { apply filter_all. intros x. reflexivity. }
  destruct (buildResults_spec "" s) as (_ & Hperm & _).
  rewrite Hall in Hperm. fold (JsMap.keys (byEntity s)) in Hperm.
  split; [exact Hall|]. split; [exact Hperm|]. split.
  - apply Permutation_length in Hperm. unfold rowEntities, JsMap.keys, JsMap.entries in *.
    now rewrite !length_map in Hperm.
  - intros Hin. apply (Permutation_in _ (Permutation_sym Hperm)), Hin.
Qed.

Lemma empty_host_filters_nothing_witness :
  exists r sc',
    @audit Example.platform Example.filePage Example.fileRecords [] None
      Example.freshScope = (Normal r, sc')
    /\ In ""%string (rowEntities (resultRows r))
    /\ List.length (resultRows r) = 2%nat.
Proof.
  assert (Hs : @getSummaries Example.platform Example.fileRecords []
                 (multiplierOf None) Example.freshScope
               = (Normal Example.fileSummaries, Some (byURL Example.fileSummaries)))
    by reflexivity.
  destruct (empty_host_filters_nothing Example.platform Example.filePage
              Example.fileRecords [] None Example.freshScope Example.fileSummaries
              (Some (byURL Example.fileSummaries)) eq_refl Hs)
    as (r & Hr & _ & _ & Hlen & Hin).
  exists r, (Some (byURL Example.fileSummaries)).
  split; [exact Hr|]. split; [apply Hin; now left | exact Hlen].
Defined.

(** ** The sub-items *)

(** Nothing is selected exactly when the selected subtotal is zero. *)
Lemma selection_zero_iff (entity : string) (summaries : Summaries) (stats : Summary) :
  fst (selection entity summaries stats) = 0%nat
  <-> sub_transferSize (snd (selection entity summaries stats)) == 0.
Proof.
  destruct (selection_spec entity summaries stats) as (_ & Hlen & Hts & _).
  cbv zeta in *. split.
  - intros Hn. rewrite Hn in Hts. rewrite Hts. reflexivity.
  - intros Hz. rewrite Hz in Hts.
    destruct (fst (selection entity summaries stats)) as [|n]; [reflexivity|].
    pose proof (candidate_inv entity summaries) as Hpos.
    destruct (candidateItems entity summaries) as [|it items]; simpl in Hlen; [lia|].
    unfold JsArray.slice0, itemBytes in Hts. simpl in Hts.
    pose proof (Hpos it (or_introl eq_refl)) as [_ Hit].
    assert (0 <= sumQ (map item_transferSize (firstn n items))).
    { apply sumQ_nonneg. intros x Hx. apply in_map_iff in Hx as (y & <- & Hy).
      apply (in_slice0 n) in Hy. destruct (Hpos y (or_intror Hy)). lra. }
    lra.
Qed.

(** C7.  When the selected subtotal is zero, no item has passed the stop
    rule and [makeSubItems] returns the empty array. *)
Theorem makeSubItems_empty_when_nothing_selected :
  forall (entity : string) (summaries : Summaries) (stats : Summary),
  sub_transferSize (snd (selection entity summaries stats)) == 0 ->
  sub_blockingTime (snd (selection entity summaries stats)) == 0 ->
  fst (selection entity summaries stats) = 0%nat
  /\ makeSubItems entity summaries stats = [].
Proof.
  intros entity summaries stats Hts Hbt.
  split; [now apply selection_zero_iff|].
  rewrite makeSubItems_unfold. cbv zeta.
  apply is_zero_iff in Hts, Hbt. now rewrite Hts, Hbt.
Qed.

(** The entity of 200 URLs of 100 bytes each and no blocking time: its total
    is 20000 bytes, the floor is 4096 bytes, nothing is selected and there is
    no sub-item. *)
Lemma makeSubItems_empty_when_nothing_selected_witness :
  List.length (nodup string_dec (Example.manyURLs 200)) = 200%nat
  /\ transferSize (Example.uniformStats 200 0 100) == 20000
  /\ minTransferSizeOf (Example.uniformStats 200 0 100) == 4096
  /\ fst (selection "cdn.example" (Example.uniformSummaries 200 0 100)
            (Example.uniformStats 200 0 100)) = 0%nat
  /\ makeSubItems "cdn.example" (Example.uniformSummaries 200 0 100)
       (Example.uniformStats 200 0 100) = [].
Proof.
  split; [vm_compute; reflexivity|].
  split; [vm_compute; reflexivity|].
  split; [vm_compute; reflexivity|].
  apply makeSubItems_empty_when_nothing_selected; vm_compute; reflexivity.
Defined.

(** C8.  [makeSubItems] returns at most 101 items: at most [MAX_SUBITEMS],
    that is 100, items that are URLs, followed by at most one remainder. *)
Theorem makeSubItems_length :
  forall (entity : string) (summaries : Summaries) (stats : Summary),
  (List.length (makeSubItems entity summaries stats) <= 101)%nat
  /\ exists real rest,
       makeSubItems entity summaries stats = (real ++ rest)%list
       /\ (List.length real <= 100)%nat
       /\ hasRemainder real = false
       /\ (List.length rest <= 1)%nat.
Proof.
  intros entity summaries stats.
  destruct (selection_spec entity summaries stats) as (Hmax & _).
  cbv zeta in Hmax. unfold MAX_SUBITEMS in Hmax.
  pose proof (hasRemainder_selected entity summaries
                (fst (selection entity summaries stats))) as Hsel.
  assert (Hlen : (List.length (JsArray.slice0 (fst (selection entity summaries stats))
                                 (candidateItems entity summaries)) <= 100)%nat).
  { unfold JsArray.slice0. rewrite length_firstn. lia. }
  rewrite makeSubItems_unfold. cbv zeta.
  destruct (Js.is_zero _ && Js.is_zero _).
  - split; [simpl; lia|]. exists [], []. simpl. repeat split; lia.
  - destruct (Js.gtb _ _).
    + split; [rewrite length_app; simpl; lia|].
      eexists. eexists. split; [reflexivity|]. simpl. repeat split; try lia; assumption.
    + split; [lia|].
      eexists. exists []. split; [now rewrite app_nil_r|]. simpl.
      repeat split; try lia; assumption.
Qed.

(** The bound is reached: 200 URLs with blocking time give 100 URLs and the
    remainder. *)
Lemma subItems_bound_reached :
  List.length (makeSubItems "cdn.example" (Example.uniformSummaries 200 10 1000)
                 (Example.uniformStats 200 10 1000)) = 101%nat.
Proof. vm_compute. reflexivity. Qed.

(** C6, as stated, fails: for the entity of 200 URLs of 100 bytes each and
    no blocking time, the remainder would weigh 20000 bytes, more than the
    floor of 4096 bytes, and it is not appended, because the function has
    returned the empty array at line 94. *)
Lemma remainder_not_appended_when_nothing_selected :
  ~ (forall (entity : string) (summaries : Summaries) (stats : Summary),
       hasRemainder (makeSubItems entity summaries stats) = true
       <-> minTransferSizeOf stats
           < item_transferSize
               (remainderOf stats (snd (selection entity summaries stats)))).
Proof.
  intros H.
  destruct (H "cdn.example"%string (Example.uniformSummaries 200 0 100)
              (Example.uniformStats 200 0 100)) as [_ Hback].
  assert (Hlt : minTransferSizeOf (Example.uniformStats 200 0 100)
                < item_transferSize
                    (remainderOf (Example.uniformStats 200 0 100)
                       (snd (selection "cdn.example"
                               (Example.uniformSummaries 200 0 100)
                               (Example.uniformStats 200 0 100)))))
    by (vm_compute; reflexivity).
  apply Hback in Hlt. vm_compute in Hlt. discriminate.
Qed.

(** C6, amended.  Let [stats] be the total of the entity's URLs, none of
    which has a negative size.  The floor is [max(4096, transferSize / 20)];
    the remainder and the selected items add up to the entity's
    [transferSize] and [blockingTime]; the bytes of the returned items do not
    exceed the entity's bytes.  Unless the selected subtotal is zero (then the
    function has returned the empty array before it builds the remainder),
    the remainder is appended to the selected items exactly when its
    [transferSize] exceeds the floor. *)
Theorem makeSubItems_remainder :
  forall (entity : string) (summaries : Summaries) (stats : Summary),
  transferSize stats == entityTransfer entity summaries ->
  transfersNonNegative summaries = true ->
  let items := candidateItems entity summaries in
  let numSubItems := fst (selection entity summaries stats) in
  let subitemSummary := snd (selection entity summaries stats) in
  let selected := JsArray.slice0 numSubItems items in
  let remainder := remainderOf stats subitemSummary in
  let result := makeSubItems entity summaries stats in
  minTransferSizeOf stats == Qmax 4096 (transferSize stats / 20)
  /\ item_transferSize remainder + itemBytes selected == transferSize stats
  /\ item_blockingTime remainder + itemBlocking selected == blockingTime stats
  /\ itemBytes result <= transferSize stats
  /\ (Js.is_zero (sub_blockingTime subitemSummary)
      && Js.is_zero (sub_transferSize subitemSummary) = false ->
      (hasRemainder result = true
       <-> minTransferSizeOf stats < item_transferSize remainder)
      /\ (minTransferSizeOf stats < item_transferSize remainder ->
          result = (selected ++ [remainder])%list)
      /\ (~ minTransferSizeOf stats < item_transferSize remainder ->
          result = selected)).
Proof.
  intros entity summaries stats Hstats Hnn items numSubItems subitemSummary
    selected remainder result.
  destruct (selection_spec entity summaries stats) as (_ & _ & Hts & Hbt).
  cbv zeta in Hts, Hbt.
  fold numSubItems subitemSummary items in Hts, Hbt. fold selected in Hts, Hbt.
  assert (Hrts : item_transferSize remainder + itemBytes selected == transferSize stats).
  { unfold remainder, remainderOf. simpl. lra. }
  assert (Hsel : itemBytes selected <= transferSize stats).
  { rewrite Hstats.
    apply Qle_trans with (itemBytes items);
      [apply itemBytes_selected_le | now apply itemBytes_candidates_le]. }
  split; [reflexivity|]. split; [exact Hrts|].
  split; [unfold remainder, remainderOf; simpl; lra|].
  assert (Hshape : result
                   = if Js.is_zero (sub_blockingTime subitemSummary)
                        && Js.is_zero (sub_transferSize subitemSummary)
                     then []
                     else if Js.gtb (item_transferSize remainder) (minTransferSizeOf stats)
                          then (selected ++ [remainder])%list else selected).
  { unfold result. now rewrite makeSubItems_unfold. }
  split.
  - rewrite Hshape.
    destruct (Js.is_zero _ && Js.is_zero _).
    + unfold itemBytes. simpl. rewrite Hstats. now apply entityTransfer_nonneg.
    + destruct (Js.gtb _ _); [|exact Hsel].
      rewrite itemBytes_app. unfold itemBytes at 2. simpl. lra.
  - intros Hnz. rewrite Hnz in Hshape.
    destruct (Js.gtb (item_transferSize remainder) (minTransferSizeOf stats)) eqn:Egt.
    + pose proof Egt as Hlt. apply ltb_lt in Hlt.
      rewrite Hshape. split; [|split].
      * split; [intros _; exact Hlt | intros _; apply hasRemainder_appended].
      * reflexivity.
      * intros Hn. contradiction.
    + assert (Hn : ~ minTransferSizeOf stats < item_transferSize remainder).
      { intros Hlt. apply ltb_lt in Hlt. unfold Js.gtb in Egt. congruence. }
      rewrite Hshape. split; [|split].
      * unfold selected, items. rewrite hasRemainder_selected.
        split; [discriminate | intros Hlt; contradiction].
      * intros Hlt. contradiction.
      * reflexivity.
Qed.

(** One script of 100000 bytes is selected; the two images of 3000 bytes
    are below the floor of 5300 bytes and make a remainder of 6000 bytes. *)
Lemma makeSubItems_remainder_witness :
  minTransferSizeOf Example.mixedStats == 5300
  /\ hasRemainder (makeSubItems "cdn.example" Example.mixedSummaries Example.mixedStats)
     = true
  /\ itemBytes (makeSubItems "cdn.example" Example.mixedSummaries Example.mixedStats)
     <= 106000.
Proof.
  assert (H1 : transferSize Example.mixedStats
               == entityTransfer "cdn.example" Example.mixedSummaries)
    by (vm_compute; reflexivity).
  destruct (makeSubItems_remainder "cdn.example" Example.mixedSummaries
              Example.mixedStats H1 eq_refl) as (_ & _ & _ & Hle & Hiff).
  split; [vm_compute; reflexivity|].
  split; [|exact Hle].
  destruct Hiff as ((_ & Hback) & _); [vm_compute; reflexivity|].
  apply Hback. vm_compute. reflexivity.
Defined.

(** * Further properties *)

(** ** [getSummaries]: errors, keys and what each URL holds *)

Lemma keys_set_extends {V : Type} (m : JsMap.t V) (k : string) (v : V) :
  exists l, JsMap.keys (JsMap.set m k v) = (JsMap.keys m ++ l)%list
            /\ forall x, In x l -> x = k.
Proof.
  unfold JsMap.keys. induction m as [|[k0 v0] m (l & IH & Hl)]; simpl.
  - exists [k]. split; [reflexivity|]. intros x [<-|[]]. reflexivity.
  - destruct (String.eqb k0 k); simpl.
    + exists []. split; [now rewrite app_nil_r | intros x []].
    + exists l. split; [now rewrite IH | exact Hl].
Qed.

Lemma keys_set_has {V : Type} (m : JsMap.t V) (k : string) (v : V) :
  In k (JsMap.keys (JsMap.set m k v)).
Proof. apply (JsMap_get_in_keys _ _ v), JsMap_get_set_same. Qed.

Lemma keys_set_keeps {V : Type} (m : JsMap.t V) (k k' : string) (v : V) :
  In k' (JsMap.keys m) -> In k' (JsMap.keys (JsMap.set m k v)).
Proof.
  destruct (keys_set_extends m k v) as (l & -> & _). intros H.
  apply in_or_app. now left.
Qed.

Section FurtherSummaries.

Context {P : Platform}.

Lemma entries_unparsable (entries : list (string * Summary)) :
  allParse (map fst entries) = false ->
  forall st, foldC addEntry entries st = Throw (TypeError "Invalid URL").
Proof.
  induction entries as [|[k s] entries IH]; intros Hp st; simpl in *; [discriminate|].
  destruct st as [bE us]. unfold addEntry.
  destruct (url_host k) as [e|]; [|reflexivity]. simpl in Hp. now apply IH.
Qed.

Lemma requests_keys (networkRecords : list NetworkRecord.t) :
  forall m,
  (exists l, JsMap.keys (fold_left requestStep networkRecords m)
             = (JsMap.keys m ++ l)%list)
  /\ forall u, In u (JsMap.keys (fold_left requestStep networkRecords m))
               <-> In u (JsMap.keys m) \/ In u (map NetworkRecord.url networkRecords).
Proof.
  induction networkRecords as [|r rs IH]; intros m; simpl.
  - split; [exists []; now rewrite app_nil_r | tauto].
  - destruct (IH (requestStep m r)) as ((l & Hl) & Hin). unfold requestStep in *.
    destruct (keys_set_extends m (NetworkRecord.url r)
                {| mainThreadTime := mainThreadTime (orDefault (JsMap.get m (NetworkRecord.url r)));
                   blockingTime := blockingTime (orDefault (JsMap.get m (NetworkRecord.url r)));
                   transferSize := transferSize (orDefault (JsMap.get m (NetworkRecord.url r)))
                                   + NetworkRecord.transferSize r |})
      as (l0 & Hl0 & Hk).
    split.
    + exists (l0 ++ l)%list. now rewrite Hl, Hl0, app_assoc.
    + intros u. rewrite Hin. split.
      * intros [H|H]; [|tauto]. rewrite Hl0 in H.
        apply in_app_or in H as [H|H]; [tauto|]. apply Hk in H. subst. tauto.
      * intros [H|[H|H]]; [left; now apply keys_set_keeps | | tauto].
        subst. left. apply keys_set_has.
Qed.

Lemma tasks_keys (jsURLs : JsURLs) (cpuMultiplier : Q) (tasks : list Task) :
  forall m,
  (exists l, JsMap.keys (fold_left (taskStep jsURLs cpuMultiplier) tasks m)
             = (JsMap.keys m ++ l)%list)
  /\ forall u, In u (JsMap.keys (fold_left (taskStep jsURLs cpuMultiplier) tasks m))
               <-> In u (JsMap.keys m)
                   \/ In u (map (fun t => getAttributableURLForTask t jsURLs) tasks).
Proof.
  induction tasks as [|t ts IH]; intros m; simpl.
  - split; [exists []; now rewrite app_nil_r | tauto].
  - destruct (IH (taskStep jsURLs cpuMultiplier m t)) as ((l & Hl) & Hin).
    unfold taskStep in *.
    set (u0 := getAttributableURLForTask t jsURLs) in *.
    set (v0 := {| mainThreadTime := _; blockingTime := _; transferSize := _ |}) in *.
    destruct (keys_set_extends m u0 v0) as (l0 & Hl0 & Hk).
    split.
    + exists (l0 ++ l)%list. now rewrite Hl, Hl0, app_assoc.
    + intros u. rewrite Hin. split.
      * intros [H|H]; [|tauto]. rewrite Hl0 in H.
        apply in_app_or in H as [H|H]; [tauto|]. apply Hk in H. subst. tauto.
      * intros [H|[H|H]]; [left; now apply keys_set_keeps | | tauto].
        subst. left. apply keys_set_has.
Qed.

Lemma requests_per_url (networkRecords : list NetworkRecord.t) (u : string) :
  forall m,
  let after := orDefault (JsMap.get (fold_left requestStep networkRecords m) u) in
  transferSize after
  == transferSize (orDefault (JsMap.get m u))
     + sumQ (map NetworkRecord.transferSize (requestsOf u networkRecords))
  /\ mainThreadTime after == mainThreadTime (orDefault (JsMap.get m u))
  /\ blockingTime after == blockingTime (orDefault (JsMap.get m u)).
Proof.
  induction networkRecords as [|r rs IH]; intros m; simpl; [repeat split; lra|].
  destruct (IH (requestStep m r)) as (Ht & Hm & Hb). cbv zeta in *.
  rewrite Ht, Hm, Hb. unfold requestStep.
  destruct (String.eqb_spec (NetworkRecord.url r) u) as [->|Hne]; simpl.
  - rewrite JsMap_get_set_same. simpl. repeat split; lra.
  - rewrite JsMap_get_set_other by congruence. repeat split; lra.
Qed.

Lemma tasks_keep_transfer (jsURLs : JsURLs) (cpuMultiplier : Q) (tasks : list Task)
    (u : string) :
  forall m,
  transferSize (orDefault (JsMap.get (fold_left (taskStep jsURLs cpuMultiplier) tasks m) u))
  == transferSize (orDefault (JsMap.get m u)).
Proof.
  induction tasks as [|t ts IH]; intros m; simpl; [lra|].
  rewrite IH. unfold taskStep.
  destruct (String.eqb_spec (getAttributableURLForTask t jsURLs) u) as [->|Hne].
  - rewrite JsMap_get_set_same. simpl. lra.
  - rewrite JsMap_get_set_other by congruence. lra.
Qed.

End FurtherSummaries.

(** X1.  With [byURL] bound, [getSummaries] returns exactly when every key
    of the [Map], after the two loops, is a URL with a host; otherwise it
    throws the [TypeError] of [new URL].  Either way the [Map] keeps what the
    two loops have added to it. *)
Theorem getSummaries_throws_iff_unparsable :
  forall (P : Platform) (m : JsMap.t Summary) (networkRecords : list NetworkRecord.t)
         (mainThreadTasks : list Task) (cpuMultiplier : Q),
  let m' := aggregated m networkRecords mainThreadTasks cpuMultiplier in
  let run := getSummaries networkRecords mainThreadTasks cpuMultiplier (Some m) in
  snd run = Some m'
  /\ (allParse (JsMap.keys m') = true ->
      exists s, fst run = Normal s /\ byURL s = m')
  /\ (allParse (JsMap.keys m') = false ->
      fst run = Throw (TypeError "Invalid URL"))
  /\ ((exists s, fst run = Normal s) <-> allParse (JsMap.keys m') = true).
Proof.
  intros P m rs ts c m' run. unfold run. rewrite getSummaries_bound. cbv zeta.
  fold m'. simpl. split; [reflexivity|].
  assert (Hyes : allParse (JsMap.keys m') = true ->
                 exists s,
                   match foldC addEntry (JsMap.entries m') (JsMap.empty, JsMap.empty) with
                   | Normal st => Normal {| byURL := m'; byEntity := fst st; urls := snd st |}
                   | Throw e => Throw e
                   end = Normal s /\ byURL s = m').
  { intros Hp. unfold JsMap.entries.
    destruct (entries_parse _ Hp (JsMap.empty, JsMap.empty)) as [st ->].
    eexists. split; reflexivity. }
  assert (Hno : allParse (JsMap.keys m') = false ->
                match foldC addEntry (JsMap.entries m') (JsMap.empty, JsMap.empty) with
                | Normal st => Normal {| byURL := m'; byEntity := fst st; urls := snd st |}
                | Throw e => Throw e
                end = Throw (TypeError "Invalid URL")).
  { intros Hp. unfold JsMap.entries. now rewrite (entries_unparsable _ Hp). }
  split; [exact Hyes|]. split; [exact Hno|]. split.
  - intros [s Hs]. destruct (allParse (JsMap.keys m')) eqn:E; [reflexivity|].
    rewrite (Hno eq_refl) in Hs. discriminate.
  - intros Hp. destruct (Hyes Hp) as (s & Hs & _). now exists s.
Qed.

(** X2.  The keys of [byURL] after an invocation are the keys it had, in
    their places, followed by new ones; a URL is a key exactly if it was one,
    or is the URL of a record, or is the URL a task is attributed to; and the
    keys stay distinct. *)
Theorem byURL_keys_after_getSummaries :
  forall (P : Platform) (m : JsMap.t Summary) (networkRecords : list NetworkRecord.t)
         (mainThreadTasks : list Task) (cpuMultiplier : Q),
  exists m',
    snd (getSummaries networkRecords mainThreadTasks cpuMultiplier (Some m)) = Some m'
    /\ (exists added, JsMap.keys m' = (JsMap.keys m ++ added)%list)
    /\ (forall u,
          In u (JsMap.keys m')
          <-> In u (JsMap.keys m)
              \/ In u (map NetworkRecord.url networkRecords)
              \/ In u (map (fun t => getAttributableURLForTask t
                                       (getJavaScriptURLs networkRecords))
                           mainThreadTasks))
    /\ (NoDup (JsMap.keys m) -> NoDup (JsMap.keys m')).
Proof.
  intros P m rs ts c. exists (aggregated m rs ts c).
  split; [now rewrite getSummaries_bound|]. unfold aggregated.
  destruct (requests_keys rs m) as ((l1 & Hl1) & Hin1).
  destruct (tasks_keys (getJavaScriptURLs rs) c ts (fold_left requestStep rs m))
    as ((l2 & Hl2) & Hin2).
  split; [|split].
  - exists (l1 ++ l2)%list. now rewrite Hl2, Hl1, app_assoc.
  - intros u. rewrite Hin2, Hin1. tauto.
  - intros Hnd. now apply tasks_NoDup, requests_NoDup.
Qed.

(** X3.  After an invocation each URL of [byURL] holds what it held before
    plus the bytes of the records of that URL, the scaled durations of the
    tasks attributed to it and their parts beyond 50 ms; records of other
    URLs and tasks attributed to other URLs do not touch it. *)
Theorem byURL_per_url :
  forall (P : Platform) (m : JsMap.t Summary) (networkRecords : list NetworkRecord.t)
         (mainThreadTasks : list Task) (cpuMultiplier : Q) (u : string),
  exists m',
    snd (getSummaries networkRecords mainThreadTasks cpuMultiplier (Some m)) = Some m'
    /\ transferSize (orDefault (JsMap.get m' u))
       == transferSize (orDefault (JsMap.get m u))
          + sumQ (map NetworkRecord.transferSize (requestsOf u networkRecords))
    /\ mainThreadTime (orDefault (JsMap.get m' u))
       == mainThreadTime (orDefault (JsMap.get m u))
          + sumQ (map (taskDuration cpuMultiplier)
                    (tasksOf (getJavaScriptURLs networkRecords) u mainThreadTasks))
    /\ blockingTime (orDefault (JsMap.get m' u))
       == blockingTime (orDefault (JsMap.get m u))
          + sumQ (map (clipped cpuMultiplier)
                    (tasksOf (getJavaScriptURLs networkRecords) u mainThreadTasks)).
Proof.
  intros P m rs ts c u. exists (aggregated m rs ts c).
  split; [now rewrite getSummaries_bound|]. unfold aggregated, tasksOf.
  destruct (tasks_per_url (getJavaScriptURLs rs) c ts u (fold_left requestStep rs m))
    as [Hb Hm].
  destruct (requests_per_url rs u m) as (Ht & Hm0 & Hb0). cbv zeta in *.
  rewrite tasks_keep_transfer, Ht, Hb, Hm, Hm0, Hb0. repeat split; lra.
Qed.

(** ** [getSummaries]: the entities *)

Lemma keys_set_same_keys {V W : Type} (m1 : JsMap.t V) (m2 : JsMap.t W)
    (k : string) (v : V) (w : W) :
  JsMap.keys m1 = JsMap.keys m2 ->
  JsMap.keys (JsMap.set m1 k v) = JsMap.keys (JsMap.set m2 k w).
Proof.
  unfold JsMap.keys. revert m2.
  induction m1 as [|[k1 v1] m1 IH]; intros [|[k2 w2] m2]; simpl; try discriminate.
  - reflexivity.
  - intros H. injection H as <- H.
    destruct (String.eqb k1 k); simpl; [now rewrite H|]. now rewrite (IH m2 H).
Qed.

(** Filtering a list keeps its images under [f] distinct. *)
Lemma filter_keeps_distinct {A B : Type} (p : A -> bool) (f : A -> B) (l : list A)
    (Hnd : NoDup (map f l)) :
  NoDup (map f (filter p l)).
Proof.
  revert Hnd. induction l as [|x l IH]; simpl; intros Hnd; [constructor|].
  inversion Hnd as [|? ? Hnotin Hnd']; subst.
  destruct (p x); simpl; [|now apply IH].
  constructor; [|now apply IH].
  intros Hin. apply Hnotin. apply in_map_iff in Hin as (y & Hy & Hin).
  apply filter_In in Hin as [Hin _]. rewrite <- Hy. now apply in_map.
Qed.

Section FurtherEntities.

Context {P : Platform}.

Lemma hasHost_iff (entity u : string) :
  hasHost entity u = true <-> url_host u = Some entity.
Proof.
  unfold hasHost. destruct (url_host u) as [h|]; [|split; discriminate].
  destruct (String.eqb_spec h entity) as [->|Hne]; split; intros H;
    try reflexivity; try discriminate; congruence.
Qed.

Lemma foldC_same_keys (entries : list (string * Summary)) :
  forall st st', foldC addEntry entries st = Normal st' ->
  JsMap.keys (fst st) = JsMap.keys (snd st) ->
  JsMap.keys (fst st') = JsMap.keys (snd st').
Proof.
  induction entries as [|[u us] entries IH]; intros st st'; simpl.
  - intros H. now injection H as <-.
  - destruct (addEntry st (u, us)) as [st1|] eqn:E; [|discriminate].
    intros H Hk. apply (IH _ _ H).
    destruct st as [bE ue]. unfold addEntry in E.
    destruct (url_host u) as [e|]; [|discriminate].
    injection E as <-. simpl in *. now apply keys_set_same_keys.
Qed.

Lemma foldC_keys_from (entries : list (string * Summary)) (entity : string) :
  forall st st', foldC addEntry entries st = Normal st' ->
  In entity (JsMap.keys (fst st')) ->
  In entity (JsMap.keys (fst st))
  \/ exists u, In u (map fst entries) /\ url_host u = Some entity.
Proof.
  induction entries as [|[u us] entries IH]; intros st st'; simpl.
  - intros H. injection H as <-. tauto.
  - destruct (addEntry st (u, us)) as [st1|] eqn:E; [|discriminate].
    intros H Hin. destruct (IH _ _ H Hin) as [Hin1|(u' & Hu' & Hh)].
    + destruct st as [bE ue]. unfold addEntry in E.
      destruct (url_host u) as [e|] eqn:Eh; [|discriminate].
      injection E as <-. simpl in Hin1.
      apply JsMap_keys_set in Hin1 as [Hin1 | ->]; [now left|].
      right. exists u. split; [now left | exact Eh].
    + right. exists u'. split; [now right | exact Hh].
Qed.

Lemma foldC_parsed (entries : list (string * Summary)) :
  forall st st', foldC addEntry entries st = Normal st' ->
  forall u, In u (map fst entries) -> exists e, url_host u = Some e.
Proof.
  induction entries as [|[u0 us] entries IH]; intros st st'; simpl; [intros _ u []|].
  destruct (addEntry st (u0, us)) as [st1|] eqn:E; [|discriminate].
  intros H u [<-|Hin]; [|exact (IH _ _ H u Hin)].
  destruct st as [bE ue]. unfold addEntry in E.
  destruct (url_host u0) as [e|]; [eauto|discriminate].
Qed.

End FurtherEntities.

(** X4.  In the summaries returned from a [Map] with distinct keys, the list
    of an entity holds exactly the keys of [byURL] whose host is that entity,
    each once; so every key of [byURL] is in the list of one entity, its
    host, and in no other list. *)
Theorem urls_partition_byURL :
  forall (P : Platform) (m : JsMap.t Summary) (networkRecords : list NetworkRecord.t)
         (mainThreadTasks : list Task) (cpuMultiplier : Q) (s : Summaries) (sc : Scope),
  NoDup (JsMap.keys m) ->
  getSummaries networkRecords mainThreadTasks cpuMultiplier (Some m) = (Normal s, sc) ->
  (forall entity u,
     In u (urlsOf entity s) <-> In u (JsMap.keys (byURL s)) /\ url_host u = Some entity)
  /\ (forall entity, NoDup (urlsOf entity s))
  /\ (forall u, In u (JsMap.keys (byURL s)) ->
        exists entity,
          url_host u = Some entity /\ In u (urlsOf entity s)
          /\ forall entity', In u (urlsOf entity' s) -> entity' = entity).
Proof.
  intros P m rs ts c s sc Hnd. rewrite getSummaries_bound. cbv zeta.
  destruct (foldC addEntry _ _) as [st|] eqn:E; [|discriminate].
  intros H. injection H as <- _.
  set (m' := aggregated m rs ts c) in *.
  assert (Hnd' : NoDup (JsMap.keys m')).
  { unfold m', aggregated. now apply tasks_NoDup, requests_NoDup. }
  assert (Hurls : forall entity,
            urlsOf entity {| byURL := m'; byEntity := fst st; urls := snd st |}
            = map fst (filter (fun e => hasHost entity (fst e)) (JsMap.entries m'))).
  { intros entity. unfold urlsOf. simpl. now rewrite (urls_foldC _ entity _ _ E). }
  assert (Hiff : forall entity u,
            In u (urlsOf entity {| byURL := m'; byEntity := fst st; urls := snd st |})
            <-> In u (JsMap.keys m') /\ url_host u = Some entity).
  { intros entity u. rewrite Hurls. unfold JsMap.keys, JsMap.entries. split.
    - intros Hin. apply in_map_iff in Hin as ([u' us] & <- & Hin).
      apply filter_In in Hin as [Hin Hh]. simpl in *. split.
      + now apply (in_map fst) in Hin.
      + now apply hasHost_iff.
    - intros [Hin Hh]. apply in_map_iff in Hin as ([u' us] & <- & Hin).
      apply in_map_iff. exists (u', us). split; [reflexivity|].
      apply filter_In. split; [exact Hin | now apply hasHost_iff]. }
  simpl. split; [exact Hiff|]. split.
  - intros entity. rewrite Hurls. now apply filter_keeps_distinct.
  - intros u Hin.
    destruct (foldC_parsed _ _ _ E u Hin) as [entity Hh].
    exists entity. split; [exact Hh|]. split; [now apply Hiff|].
    intros entity' Hin'. apply Hiff in Hin' as [_ Hh']. congruence.
Qed.

Lemma urls_partition_byURL_witness :
  urlsOf "" Example.fileSummaries = ["file:///app.js"%string]
  /\ urlsOf "a.com" Example.fileSummaries = ["https://a.com/x.js"%string]
  /\ forall entity, NoDup (urlsOf entity Example.fileSummaries).
Proof.
  assert (Hs : @getSummaries Example.platform Example.fileRecords [] 1 Example.freshScope
               = (Normal Example.fileSummaries, Some (byURL Example.fileSummaries)))
    by reflexivity.
  destruct (urls_partition_byURL Example.platform JsMap.empty Example.fileRecords []
              1 Example.fileSummaries _ (NoDup_nil _) Hs) as (_ & Hnd & _).
  split; [reflexivity|]. split; [reflexivity | exact Hnd].
Defined.

(** X5.  In the returned summaries [byEntity] and [urls] have the same keys,
    in the same order and distinct: the hosts of the keys of [byURL].  The
    summary of each entity is the sum, field by field, of the summaries of
    the URLs of [byURL] with that host. *)
Theorem byEntity_entities :
  forall (P : Platform) (m : JsMap.t Summary) (networkRecords : list NetworkRecord.t)
         (mainThreadTasks : list Task) (cpuMultiplier : Q) (s : Summaries) (sc : Scope),
  getSummaries networkRecords mainThreadTasks cpuMultiplier (Some m) = (Normal s, sc) ->
  JsMap.keys (byEntity s) = JsMap.keys (urls s)
  /\ NoDup (JsMap.keys (byEntity s))
  /\ (forall entity,
        In entity (JsMap.keys (byEntity s))
        <-> exists u, In u (JsMap.keys (byURL s)) /\ url_host u = Some entity)
  /\ (forall entity,
        transferSize (orDefault (JsMap.get (byEntity s) entity))
        == entitySum transferSize entity (JsMap.entries (byURL s))
        /\ mainThreadTime (orDefault (JsMap.get (byEntity s) entity))
           == entitySum mainThreadTime entity (JsMap.entries (byURL s))
        /\ blockingTime (orDefault (JsMap.get (byEntity s) entity))
           == entitySum blockingTime entity (JsMap.entries (byURL s))).
Proof.
  intros P m rs ts c s sc. rewrite getSummaries_bound. cbv zeta.
  destruct (foldC addEntry _ _) as [st|] eqn:E; [|discriminate].
  intros H. injection H as <- _. simpl.
  split; [exact (foldC_same_keys _ _ _ E eq_refl)|].
  split; [apply (byEntity_NoDup _ _ _ E); constructor|].
  split.
  - intros entity. split.
    + intros Hin. destruct (foldC_keys_from _ entity _ _ E Hin) as [ Hin0 | Hex ]; [destruct Hin0|].
      exact Hex.
    + intros (u & Hin & Hh). unfold JsMap.keys in Hin.
      apply in_map_iff in Hin as ([u' us] & <- & Hin).
      pose proof (foldC_adds _ _ _ _ Hin Hh _ _ E) as Hget.
      destruct (JsMap.get (fst st) entity) as [es|] eqn:Eg; [|congruence].
      exact (JsMap_get_in_keys _ _ _ Eg).
  - intros entity.
    pose proof (entity_foldC transferSize (fun a b => reflexivity _) _ entity _ _ E) as Ht.
    pose proof (entity_foldC mainThreadTime (fun a b => reflexivity _) _ entity _ _ E) as Hm.
    pose proof (entity_foldC blockingTime (fun a b => reflexivity _) _ entity _ _ E) as Hb.
    simpl in *. repeat split; lra.
Qed.

Lemma byEntity_entities_witness :
  JsMap.keys (byEntity Example.fileSummaries) = [""%string; "a.com"%string]
  /\ JsMap.keys (urls Example.fileSummaries) = [""%string; "a.com"%string]
  /\ NoDup (JsMap.keys (byEntity Example.fileSummaries)).
Proof.
  assert (Hs : @getSummaries Example.platform Example.fileRecords [] 1 Example.freshScope
               = (Normal Example.fileSummaries, Some (byURL Example.fileSummaries)))
    by reflexivity.
  destruct (byEntity_entities Example.platform JsMap.empty Example.fileRecords []
              1 Example.fileSummaries _ Hs) as (_ & Hnd & _).
  split; [reflexivity|]. split; [reflexivity | exact Hnd].
Defined.

(** ** [makeSubItems]: which URLs are listed, and in which order *)

Lemma NoDup_snoc {A : Type} (l : list A) (x : A) :
  NoDup l -> ~ In x l -> NoDup (l ++ [x]).
Proof.
  intros Hnd Hx. apply (Permutation_NoDup (Permutation_cons_append l x)).
  now constructor.
Qed.

Lemma NoDup_firstn_of {A : Type} (n : nat) (l : list A) :
  NoDup l -> NoDup (firstn n l).
Proof.
  intros Hnd. rewrite <- (firstn_skipn n l) in Hnd.
  exact (NoDup_app_remove_r _ _ Hnd).
Qed.

(** Where a candidate comes from. *)
Lemma candidate_origin (entity : string) (summaries : Summaries) (it : SubItem) :
  In it (candidateItems entity summaries) ->
  exists u us,
    item_url it = Url u /\ In u (urlsOf entity summaries)
    /\ JsMap.get (byURL summaries) u = Some us
    /\ item_transferSize it = transferSize us
    /\ item_blockingTime it = blockingTime us
    /\ item_mainThreadTime it = Some (mainThreadTime us)
    /\ 0 < transferSize us.
Proof.
  unfold candidateItems. fold (urlsOf entity summaries). intros Hin.
  apply (Permutation_in _ (sort_perm _ _)) in Hin.
  apply in_flat_map in Hin as ([u os] & Hf & Hit).
  apply filter_In in Hf as [Hj Hf].
  apply in_map_iff in Hj as (u' & Hj & Hu'). unfold joinURL in Hj.
  injection Hj as -> <-.
  unfold hasTransfer in Hf. unfold toItem in Hit. simpl in *.
  destruct (JsMap.get (byURL summaries) u) as [us|] eqn:Eg; [|discriminate].
  destruct Hit as [<-|[]]. exists u, us. simpl.
  repeat split; try reflexivity; try assumption. now apply ltb_lt in Hf.
Qed.

Lemma candidate_urls_NoDup (summaries : Summaries) (l : list string) :
  NoDup l ->
  NoDup (map item_url (flat_map toItem (filter hasTransfer (map (joinURL summaries) l)))).
Proof.
  assert (Hfrom : forall l x,
            In x (map item_url
                    (flat_map toItem (filter hasTransfer (map (joinURL summaries) l)))) ->
            exists u, x = Url u /\ In u l).
  { clear l. intros l x Hin. apply in_map_iff in Hin as (it & <- & Hin).
    apply in_flat_map in Hin as ([u os] & Hf & Hit).
    apply filter_In in Hf as [Hj _].
    apply in_map_iff in Hj as (u' & Hj & Hu'). unfold joinURL in Hj.
    injection Hj as -> <-. unfold toItem in Hit. simpl in Hit.
    destruct (JsMap.get (byURL summaries) u); [|destruct Hit].
    destruct Hit as [<-|[]]. exists u. split; [reflexivity | exact Hu']. }
  induction l as [|u l IH]; intros Hnd; simpl; [constructor|].
  inversion Hnd as [|? ? Hnotin Hnd']; subst.
  destruct (hasTransfer (joinURL summaries u)) eqn:Eh; simpl; [|now apply IH].
  unfold hasTransfer, joinURL in Eh. unfold toItem at 1, joinURL at 1. simpl in *.
  destruct (JsMap.get (byURL summaries) u); [|discriminate]. simpl.
  constructor; [|now apply IH].
  intros Hin. apply Hfrom in Hin as (u' & Hu' & Hin).
  injection Hu' as <-. contradiction.
Qed.

(** X6.  Every item that [makeSubItems] returns is the remainder or a URL
    listed for the entity, with the fields of its summary in [byURL] and a
    positive transfer size: a URL of another entity, a URL missing from
    [byURL] and a URL without bytes (whatever its blocking time) are never
    listed.  If the entity's list has no duplicate, no URL is listed twice. *)
Theorem makeSubItems_lists_entity_urls :
  forall (entity : string) (summaries : Summaries) (stats : Summary),
  Forall (fun it =>
            item_url it = OtherResourcesLabel
            \/ exists u us,
                 item_url it = Url u /\ In u (urlsOf entity summaries)
                 /\ JsMap.get (byURL summaries) u = Some us
                 /\ item_transferSize it = transferSize us
                 /\ item_blockingTime it = blockingTime us
                 /\ item_mainThreadTime it = Some (mainThreadTime us)
                 /\ 0 < transferSize us)
         (makeSubItems entity summaries stats)
  /\ (NoDup (urlsOf entity summaries) ->
      NoDup (map item_url (makeSubItems entity summaries stats))).
Proof.
  intros entity summaries stats. rewrite makeSubItems_unfold. cbv zeta.
  set (n := fst (selection entity summaries stats)).
  set (sub := snd (selection entity summaries stats)).
  assert (Hsel : Forall (fun it =>
                   item_url it = OtherResourcesLabel
                   \/ exists u us,
                        item_url it = Url u /\ In u (urlsOf entity summaries)
                        /\ JsMap.get (byURL summaries) u = Some us
                        /\ item_transferSize it = transferSize us
                        /\ item_blockingTime it = blockingTime us
                        /\ item_mainThreadTime it = Some (mainThreadTime us)
                        /\ 0 < transferSize us)
                   (JsArray.slice0 n (candidateItems entity summaries))).
  { apply Forall_forall. intros it Hin. right.
    apply candidate_origin. exact (in_slice0 _ _ _ Hin). }
  assert (Hnd : NoDup (urlsOf entity summaries) ->
                NoDup (map item_url (JsArray.slice0 n (candidateItems entity summaries)))).
  { intros H. unfold JsArray.slice0. rewrite <- firstn_map. apply NoDup_firstn_of.
    unfold candidateItems. fold (urlsOf entity summaries).
    apply (Permutation_NoDup
             (Permutation_sym (Permutation_map item_url (sort_perm compareItems _)))).
    now apply candidate_urls_NoDup. }
  destruct (Js.is_zero _ && Js.is_zero _).
  - split; [constructor | intros _; constructor].
  - destruct (Js.gtb _ _); [|split; assumption]. split.
    + apply Forall_app. split; [exact Hsel|]. constructor; [now left | constructor].
    + intros H. rewrite map_app. simpl. apply NoDup_snoc; [now apply Hnd|].
      intros Hin. apply in_map_iff in Hin as (it & Hit & Hin).
      apply in_slice0, candidate_inv in Hin as [[u Hu] _]. congruence.
Qed.

(** X7.  An entity that has no list of URLs, or none of whose URLs has a
    summary with a positive transfer size, gets no sub-item, whatever
    [stats] says; so an entity that only ran tasks gets none. *)
Theorem makeSubItems_without_bytes :
  forall (entity : string) (summaries : Summaries) (stats : Summary),
  (forall u, In u (urlsOf entity summaries) ->
     ~ 0 < transferSize (orDefault (JsMap.get (byURL summaries) u))) ->
  makeSubItems entity summaries stats = [].
Proof.
  intros entity summaries stats Hnone.
  assert (Hc : candidateItems entity summaries = []).
  { destruct (candidateItems entity summaries) as [|it items] eqn:E; [reflexivity|].
    destruct (candidate_origin entity summaries it) as (u & us & _ & Hin & Hget & _ & _ & _ & Hpos).
    { rewrite E. now left. }
    exfalso. apply (Hnone u Hin). now rewrite Hget. }
  rewrite makeSubItems_unfold. cbv zeta. unfold selection. rewrite Hc. reflexivity.
Qed.

Lemma makeSubItems_without_bytes_witness :
  makeSubItems "a.com"
    {| byURL := [("https://a.com/x.js"%string, mkSummary 1200 1050 0)];
       byEntity := [("a.com"%string, mkSummary 1200 1050 0)];
       urls := [("a.com"%string, ["https://a.com/x.js"%string])] |}
    (mkSummary 1200 1050 0) = []
  /\ makeSubItems "b.com" Example.mixedSummaries Example.mixedStats = [].
Proof.
  split; apply makeSubItems_without_bytes; intros u Hin; vm_compute in Hin.
  - destruct Hin as [<-|[]]. vm_compute. discriminate.
  - destruct Hin.
Defined.

(** ** The order of the sub-items and of the rows *)

Lemma or_else_le_iff (b1 t1 b2 t2 : Q) :
  Js.or_else (b2 - b1) (t2 - t1) <= 0 <-> costlier b1 t1 b2 t2.
Proof.
  unfold Js.or_else, costlier. destruct (Js.is_zero (b2 - b1)) eqn:E.
  - apply is_zero_iff in E. split; [intros H; right; split; lra|].
    intros [H|[_ H]]; lra.
  - assert (Hne : ~ b2 - b1 == 0).
    { intros H. apply is_zero_iff in H. congruence. }
    split.
    + intros H. left. destruct (Qlt_le_dec b2 b1) as [|Hle]; [assumption|].
      exfalso. apply Hne. lra.
    + intros [H|[H _]]; [lra|]. exfalso. apply Hne. lra.
Qed.

Lemma costlier_total (b1 t1 b2 t2 : Q) :
  ~ costlier b1 t1 b2 t2 -> costlier b2 t2 b1 t1.
Proof.
  unfold costlier. intros H.
  destruct (Qlt_le_dec b1 b2) as [|Hle]; [now left|].
  destruct (Qlt_le_dec b2 b1) as [|Hle']; [exfalso; apply H; now left|].
  right. split; [lra|].
  destruct (Qlt_le_dec t1 t2) as [Hlt|]; [lra|].
  exfalso. apply H. right. split; lra.
Qed.

Lemma costlier_trans (b1 t1 b2 t2 b3 t3 : Q) :
  costlier b1 t1 b2 t2 -> costlier b2 t2 b3 t3 -> costlier b1 t1 b3 t3.
Proof.
  unfold costlier. intros [H1|[H1 H1']] [H2|[H2 H2']].
  - left; lra.
  - left; lra.
  - left; lra.
  - right; split; lra.
Qed.

Section SortSorted.

Variable A : Type.
Variable cmp : A -> A -> Q.
Variable before : A -> A -> Prop.
Hypothesis cmp_before : forall a b, cmp a b <= 0 <-> before a b.
Hypothesis before_total : forall a b, ~ before a b -> before b a.
Hypothesis before_trans : forall a b c, before a b -> before b c -> before a c.

Lemma insert_sorted (x : A) (l : list A) :
  StronglySorted before l -> StronglySorted before (JsArray.insert cmp x l).
Proof.
  induction 1 as [|y l Hs IH Hy]; simpl; [repeat constructor|].
  destruct (Qle_bool (cmp x y) 0) eqn:E.
  - apply Qle_bool_iff, cmp_before in E.
    constructor; [now constructor|]. constructor; [exact E|].
    apply Forall_forall. intros z Hz. rewrite Forall_forall in Hy.
    exact (before_trans _ _ _ E (Hy z Hz)).
  - assert (Hyx : before y x).
    { apply before_total. intros H. apply cmp_before, Qle_bool_iff in H. congruence. }
    constructor; [exact IH|].
    apply Forall_forall. intros z Hz.
    apply (Permutation_in _ (insert_perm cmp x l)) in Hz as [<-|Hz]; [exact Hyx|].
    rewrite Forall_forall in Hy. now apply Hy.
Qed.

Lemma sort_sorted (l : list A) : StronglySorted before (JsArray.sort cmp l).
Proof.
  unfold JsArray.sort. induction l as [|x l IH]; simpl; [constructor|].
  now apply insert_sorted.
Qed.

End SortSorted.

Lemma sorted_firstn {A : Type} (R : A -> A -> Prop) (n : nat) (l : list A) :
  StronglySorted R l -> StronglySorted R (firstn n l).
Proof.
  intros Hs. revert n. induction Hs as [|x l Hs IH Hx]; intros [|n]; simpl;
    try constructor; [apply IH|].
  apply Forall_forall. intros y Hy. rewrite Forall_forall in Hx.
  apply Hx. exact (in_slice0 n l y Hy).
Qed.

Lemma candidateItems_sorted (entity : string) (summaries : Summaries) :
  StronglySorted itemBefore (candidateItems entity summaries).
Proof.
  unfold candidateItems. apply sort_sorted.
  - intros a b. apply or_else_le_iff.
  - intros a b. apply costlier_total.
  - intros a b c. apply costlier_trans.
Qed.

(** X8.  The URLs that [makeSubItems] returns come in descending order of
    blocking time and, for the same blocking time, in descending order of
    transfer size; the remainder, if there is one, comes last, whatever it
    weighs. *)
Theorem makeSubItems_sorted :
  forall (entity : string) (summaries : Summaries) (stats : Summary),
  exists listed,
    StronglySorted itemBefore listed
    /\ hasRemainder listed = false
    /\ (makeSubItems entity summaries stats = listed
        \/ makeSubItems entity summaries stats
           = (listed ++ [remainderOf stats (snd (selection entity summaries stats))])%list).
Proof.
  intros entity summaries stats. rewrite makeSubItems_unfold. cbv zeta.
  destruct (Js.is_zero _ && Js.is_zero _).
  - exists []. split; [constructor|]. split; [reflexivity | now left].
  - exists (JsArray.slice0 (fst (selection entity summaries stats))
              (candidateItems entity summaries)).
    split; [apply sorted_firstn, candidateItems_sorted|].
    split; [apply hasRemainder_selected|].
    destruct (Js.gtb _ _); [now right | now left].
Qed.

(** X9.  The rows of the result of [audit] come in descending order of
    blocking time and, for the same blocking time, in descending order of
    transfer size. *)
Theorem audit_rows_sorted :
  forall (P : Platform) (finalUrl : string) (networkRecords : list NetworkRecord.t)
         (tasks : list Task) (settings : option Settings) (sc : Scope)
         (r : AuditResult) (sc' : Scope),
  audit finalUrl networkRecords tasks settings sc = (Normal r, sc') ->
  StronglySorted rowBefore (resultRows r).
Proof.
  intros P finalUrl rs ts settings sc r sc'. rewrite audit_unfold.
  destruct (hostOf finalUrl) as [h|]; [|discriminate].
  destruct (getSummaries _ _ _ sc) as [[s|e] sc1]; [|discriminate].
  intros H. injection H as <- _. rewrite resultRows_verdict.
  destruct (buildResults_spec h s) as (-> & _). apply sort_sorted.
  - intros a b. apply or_else_le_iff.
  - intros a b. apply costlier_total.
  - intros a b c. apply costlier_trans.
Qed.

Lemma audit_rows_sorted_witness :
  exists r sc',
    @audit Example.platform "https://b.com/" Example.fileRecords Example.tasksA None
      Example.freshScope = (Normal r, sc')
    /\ rowEntities (resultRows r) = ["a.com"%string; ""%string]
    /\ StronglySorted rowBefore (resultRows r).
Proof.
  eexists. eexists. split; [vm_compute; reflexivity|].
  split; [reflexivity|].
  eapply (audit_rows_sorted Example.platform "https://b.com/" Example.fileRecords
            Example.tasksA None Example.freshScope).
  vm_compute. reflexivity.
Defined.

(** ** Which candidates are selected *)

Lemma firstn_min_length {A : Type} (a b : nat) (l : list A) :
  (List.length l <= b)%nat -> firstn (Nat.min a b) l = firstn a l.
Proof.
  intros Hl. destruct (Nat.le_gt_cases a b) as [H|H].
  - now rewrite Nat.min_l.
  - rewrite Nat.min_r by lia. rewrite !firstn_all2 by lia. reflexivity.
Qed.

Lemma filter_length_le {A : Type} (p : A -> bool) (l : list A) :
  (List.length (filter p l) <= List.length l)%nat.
Proof.
  induction l as [|x l IH]; simpl; [lia|]. destruct (p x); simpl; lia.
Qed.

(** After an item that stops the loop, no item passes: the items are sorted
    and no blocking time is negative. *)
Lemma none_passes_after (minTransferSize : Q) (x : SubItem) (rest : list SubItem) :
  passes minTransferSize x = false ->
  Forall (itemBefore x) rest ->
  Forall (fun it => 0 <= item_blockingTime it) rest ->
  filter (passes minTransferSize) rest = [].
Proof.
  unfold passes. intros Hx Hb Hnn. apply negb_false_iff, andb_true_iff in Hx as [Hz Hlt].
  apply is_zero_iff in Hz. apply ltb_lt in Hlt.
  induction rest as [|y rest IH]; simpl; [reflexivity|].
  inversion Hb as [|? ? Hxy Hb']; subst. inversion Hnn as [|? ? Hy Hnn']; subst.
  assert (Hy0 : item_blockingTime y == 0 /\ item_transferSize y < minTransferSize).
  { destruct Hxy as [H|[H H']]; split; lra. }
  destruct Hy0 as [Hy0 Hyt].
  apply is_zero_iff in Hy0. apply ltb_lt in Hyt. rewrite Hy0, Hyt. simpl. now apply IH.
Qed.

Lemma selectLoop_first_passing (minTransferSize : Q) (maxSubItems : nat)
    (rest : list SubItem) :
  StronglySorted itemBefore rest ->
  Forall (fun it => 0 <= item_blockingTime it) rest ->
  forall numSubItems subitemSummary,
  firstn (fst (selectLoop minTransferSize maxSubItems rest numSubItems subitemSummary)
          - numSubItems) rest
  = firstn (maxSubItems - numSubItems) (filter (passes minTransferSize) rest).
Proof.
  induction 1 as [|x rest Hs IH Hx]; intros Hnn n sub.
  - cbn [selectLoop fst filter]. now rewrite !firstn_nil.
  - inversion Hnn as [|? ? Hx0 Hnn']; subst. cbn [selectLoop filter].
    destruct (n <? maxSubItems)%nat eqn:Hlt.
    + apply Nat.ltb_lt in Hlt.
      destruct (passes minTransferSize x) eqn:Hp.
      * pose proof Hp as Hp'. unfold passes in Hp'. apply negb_true_iff in Hp'.
        rewrite Hp'.
        specialize (IH Hnn' (S n)
                      {| sub_transferSize := sub_transferSize sub + item_transferSize x;
                         sub_blockingTime := sub_blockingTime sub + item_blockingTime x |}).
        destruct (selectLoop minTransferSize maxSubItems rest (S n) _) as [n' sub'] eqn:E.
        apply selectLoop_spec in E as (k & -> & _). cbn [fst] in *.
        replace (S n + k - S n)%nat with k in IH by lia.
        replace (S n + k - n)%nat with (S k) by lia.
        replace (maxSubItems - n)%nat with (S (maxSubItems - S n)) by lia.
        cbn [firstn]. now rewrite IH.
      * pose proof Hp as Hp'. unfold passes in Hp'. apply negb_false_iff in Hp'.
        rewrite Hp'. cbn [fst]. rewrite Nat.sub_diag. cbn [firstn].
        rewrite (none_passes_after minTransferSize x rest Hp Hx Hnn').
        now rewrite firstn_nil.
    + apply Nat.ltb_ge in Hlt. cbn [fst]. rewrite Nat.sub_diag.
      replace (maxSubItems - n)%nat with 0%nat by lia. reflexivity.
Qed.

Lemma candidates_blocking_nonneg (entity : string) (summaries : Summaries) :
  blockingNonNegative summaries = true ->
  Forall (fun it => 0 <= item_blockingTime it) (candidateItems entity summaries).
Proof.
  intros Hnn. apply Forall_forall. intros it Hin.
  apply candidate_origin in Hin as (u & us & _ & _ & Hget & _ & -> & _).
  pose proof (orDefault_forallb (fun s => Qle_bool 0 (blockingTime s))
                (byURL summaries) u eq_refl Hnn) as H.
  rewrite Hget in H. now apply Qle_bool_iff in H.
Qed.

(** X10.  When no URL has a negative blocking time, the URLs selected by
    the loop are the first [MAX_SUBITEMS] of the candidates that have
    blocking time or reach the floor: stopping at the first candidate that
    has neither loses none, because none after it has either. *)
Theorem selection_is_first_passing :
  forall (entity : string) (summaries : Summaries) (stats : Summary),
  blockingNonNegative summaries = true ->
  JsArray.slice0 (fst (selection entity summaries stats)) (candidateItems entity summaries)
  = firstn 100 (filter (passes (minTransferSizeOf stats))
                  (candidateItems entity summaries)).
Proof.
  intros entity summaries stats Hnn. unfold selection, JsArray.slice0.
  pose proof (selectLoop_first_passing (minTransferSizeOf stats)
                (Nat.min MAX_SUBITEMS (List.length (candidateItems entity summaries)))
                (candidateItems entity summaries)
                (candidateItems_sorted entity summaries)
                (candidates_blocking_nonneg entity summaries Hnn)
                0%nat {| sub_transferSize := 0; sub_blockingTime := 0 |}) as H.
  rewrite !Nat.sub_0_r in H. rewrite H. unfold MAX_SUBITEMS.
  apply firstn_min_length, filter_length_le.
Qed.

Lemma selection_is_first_passing_witness :
  JsArray.slice0 (fst (selection "cdn.example" Example.mixedSummaries Example.mixedStats))
    (candidateItems "cdn.example" Example.mixedSummaries)
  = [ {| item_url := Url "https://cdn.example/big.js";
         item_mainThreadTime := Some 300;
         item_blockingTime := 200;
         item_transferSize := 100000 |} ]
  /\ List.length (candidateItems "cdn.example" Example.mixedSummaries) = 3%nat.
Proof.
  split; [|reflexivity].
  rewrite (selection_is_first_passing "cdn.example" Example.mixedSummaries
             Example.mixedStats eq_refl).
  reflexivity.
Defined.

(** ** When there is a remainder *)

(** The candidates weigh at least what the URLs of the entity weigh: the
    URLs left out have no positive size. *)
Lemma entityTransfer_le_candidates (entity : string) (summaries : Summaries) :
  entityTransfer entity summaries <= itemBytes (candidateItems entity summaries).
Proof.
  unfold candidateItems, entityTransfer, itemBytes.
  rewrite (sumQ_perm _ _ (Permutation_map _ (sort_perm _ _))).
  induction (match JsMap.get (urls summaries) entity with
             | Some l => l | None => [] end) as [|u us IH]; simpl; [lra|].
  unfold hasTransfer at 1, joinURL at 1. simpl.
  destruct (JsMap.get (byURL summaries) u) as [s|] eqn:Eg; simpl.
  - destruct (Js.gtb (transferSize s) 0) eqn:Egt; simpl.
    + unfold joinURL at 1. simpl. rewrite Eg. simpl. lra.
    + assert (transferSize s <= 0); [|lra].
      destruct (Qlt_le_dec 0 (transferSize s)) as [Hlt|]; [|assumption].
      apply ltb_lt in Hlt. unfold Js.gtb in Egt. congruence.
  - lra.
Qed.

Lemma minTransferSize_floor (stats : Summary) : 4096 <= minTransferSizeOf stats.
Proof.
  unfold minTransferSizeOf, MIN_TRANSFER_SIZE_FOR_SUBITEMS. apply Q.le_max_l.
Qed.

(** X11.  When [stats] is the total of the entity's URLs, a remainder in the
    result weighs more than 4096 bytes and more than a twentieth of the
    entity, at least one URL has been selected and at least one candidate has
    not: an entity all of whose candidates are selected, such as one with a
    single heavy URL, gets no remainder. *)
Theorem remainder_means_left_out :
  forall (entity : string) (summaries : Summaries) (stats : Summary),
  transferSize stats == entityTransfer entity summaries ->
  hasRemainder (makeSubItems entity summaries stats) = true ->
  let numSubItems := fst (selection entity summaries stats) in
  let remainder := remainderOf stats (snd (selection entity summaries stats)) in
  4096 < item_transferSize remainder
  /\ transferSize stats / 20 < item_transferSize remainder
  /\ (0 < numSubItems)%nat
  /\ (numSubItems < List.length (candidateItems entity summaries))%nat.
Proof.
  intros entity summaries stats Hstats Hrem numSubItems remainder.
  rewrite makeSubItems_unfold in Hrem. cbv zeta in Hrem.
  fold numSubItems remainder in Hrem.
  destruct (Js.is_zero _ && Js.is_zero _) eqn:Ez; [discriminate|].
  destruct (Js.gtb (item_transferSize remainder) (minTransferSizeOf stats)) eqn:Egt;
    [|unfold numSubItems in Hrem; rewrite hasRemainder_selected in Hrem; discriminate].
  apply ltb_lt in Egt.
  pose proof (minTransferSize_floor stats) as Hfloor.
  assert (Htw : transferSize stats / 20 <= minTransferSizeOf stats).
  { unfold minTransferSizeOf. apply Q.le_max_r. }
  destruct (selection_spec entity summaries stats) as (_ & Hlen & Hts & _).
  cbv zeta in Hlen, Hts. fold numSubItems in Hlen, Hts.
  split; [lra|]. split; [lra|]. split.
  - destruct numSubItems as [|n] eqn:En; [|lia]. exfalso.
    apply andb_false_iff in Ez as [Ez|Ez].
    + destruct (selection_spec entity summaries stats) as (_ & _ & _ & Hbt).
      cbv zeta in Hbt. fold numSubItems in Hbt. rewrite En in Hbt.
      unfold JsArray.slice0, itemBlocking in Hbt. simpl in Hbt.
      apply is_zero_iff in Hbt. congruence.
    + unfold JsArray.slice0, itemBytes in Hts. simpl in Hts.
      apply is_zero_iff in Hts. congruence.
  - destruct (Nat.eq_dec numSubItems (List.length (candidateItems entity summaries)))
      as [Heq|Hne]; [|lia].
    exfalso. unfold JsArray.slice0 in Hts. rewrite Heq, firstn_all in Hts.
    pose proof (entityTransfer_le_candidates entity summaries) as Hle.
    unfold remainder, remainderOf in Egt. simpl in Egt. lra.
Qed.

Lemma remainder_means_left_out_witness :
  (0 < fst (selection "cdn.example" Example.mixedSummaries Example.mixedStats))%nat
  /\ 4096 < item_transferSize
              (remainderOf Example.mixedStats
                 (snd (selection "cdn.example" Example.mixedSummaries Example.mixedStats))).
Proof.
  assert (H1 : transferSize Example.mixedStats
               == entityTransfer "cdn.example" Example.mixedSummaries)
    by (vm_compute; reflexivity).
  destruct (remainder_means_left_out "cdn.example" Example.mixedSummaries
              Example.mixedStats H1 eq_refl) as (H4096 & _ & Hpos & _).
  split; [exact Hpos | exact H4096].
Defined.

(** ** [audit]: errors, the overall summary and the rows *)

(** X12.  [audit] throws the [TypeError] of [new URL] when the final URL has
    no host, before [getSummaries] is called: the scope is left as it was.
    In the scope of the module it throws for every input: that [TypeError],
    or else the [ReferenceError] of [getSummaries]. *)
Theorem audit_throws :
  forall (P : Platform) (finalUrl : string) (networkRecords : list NetworkRecord.t)
         (tasks : list Task) (settings : option Settings),
  (forall sc, url_host finalUrl = None ->
     audit finalUrl networkRecords tasks settings sc
     = (Throw (TypeError "Invalid URL"), sc))
  /\ audit finalUrl networkRecords tasks settings moduleScope
     = (Throw (match url_host finalUrl with
               | Some _ => ReferenceError "byURL"
               | None => TypeError "Invalid URL"
               end), moduleScope).
Proof.
  intros P finalUrl rs ts settings. split.
  - intros sc Hh. rewrite audit_unfold. unfold hostOf. now rewrite Hh.
  - rewrite audit_unfold. unfold hostOf, moduleScope.
    destruct (url_host finalUrl); [|reflexivity].
    now rewrite getSummaries_unbound.
Qed.

Lemma sumQ_filter_split {A : Type} (f : A -> Q) (p : A -> bool) (l : list A) :
  sumQ (map f l)
  == sumQ (map f (filter p l)) + sumQ (map f (filter (fun x => negb (p x)) l)).
Proof.
  induction l as [|x l IH]; simpl; [lra|].
  destruct (p x); simpl; lra.
Qed.

Lemma sumQ_at_key (f : Summary -> Q) (l : JsMap.t Summary) (k : string) :
  f defaultSummary == 0 -> NoDup (JsMap.keys l) ->
  sumQ (map (fun e => f (snd e)) (filter (fun e => String.eqb k (fst e)) l))
  == f (orDefault (JsMap.get l k)).
Proof.
  intros Hf. unfold JsMap.keys.
  induction l as [|[k0 v0] l IH]; simpl; intros Hnd; [lra|].
  inversion Hnd as [|? ? Hnotin Hnd']; subst.
  rewrite (String.eqb_sym k k0).
  destruct (String.eqb_spec k0 k) as [->|Hne]; simpl; [|now apply IH].
  assert (Hnone : filter (fun e => String.eqb k (fst e)) l = []).
  { clear IH Hnd Hnd'. induction l as [|[k1 v1] l IH]; simpl in *; [reflexivity|].
    destruct (String.eqb_spec k k1) as [->|Hne]; [exfalso; apply Hnotin; now left|].
    apply IH. intros H. apply Hnotin. now right. }
  rewrite Hnone. simpl. lra.
Qed.

(** The part of a field that the filter of line 122 leaves out. *)
Lemma dropped_share (f : Summary -> Q) (l : JsMap.t Summary) (mainEntity : string) :
  f defaultSummary == 0 -> NoDup (JsMap.keys l) ->
  sumQ (map (fun e => f (snd e)) (filter (fun e => negb (keepEntity mainEntity e)) l))
  == if Js.truthy mainEntity then f (orDefault (JsMap.get l mainEntity)) else 0.
Proof.
  intros Hf Hnd. unfold keepEntity.
  destruct (Js.truthy mainEntity).
  - rewrite <- (sumQ_at_key f l mainEntity Hf Hnd).
    rewrite (filter_ext _ (fun e : string * Summary => String.eqb mainEntity (fst e)));
      [reflexivity|].
    intros e. simpl. apply negb_involutive.
  - rewrite (filter_ext _ (fun _ : string * Summary => false)); [|reflexivity].
    clear Hnd. induction l as [|e l IH]; simpl; [lra | exact IH].
Qed.

Lemma returned_byEntity_NoDup {P : Platform} (m : JsMap.t Summary)
    (networkRecords : list NetworkRecord.t) (mainThreadTasks : list Task)
    (cpuMultiplier : Q) (s : Summaries) (sc : Scope) :
  getSummaries networkRecords mainThreadTasks cpuMultiplier (Some m) = (Normal s, sc) ->
  NoDup (JsMap.keys (byEntity s)).
Proof.
  rewrite getSummaries_bound. cbv zeta.
  destruct (foldC addEntry _ _) as [st|] eqn:E; [|discriminate].
  intros H. injection H as <- _. simpl.
  apply (byEntity_NoDup _ _ _ E). constructor.
Qed.

(** X13.  The overall summary of the report and the first party's summary
    add up to the totals of [byEntity]: [wastedBytes] and [wastedMs] count
    every entity but the host of the final URL, and every entity when that
    host is empty. *)
Theorem overall_excludes_first_party :
  forall (P : Platform) (finalUrl : string) (networkRecords : list NetworkRecord.t)
         (tasks : list Task) (settings : option Settings) (m : JsMap.t Summary)
         (mainEntity : string) (s : Summaries) (sc' : Scope),
  url_host finalUrl = Some mainEntity ->
  getSummaries networkRecords tasks (multiplierOf settings) (Some m) = (Normal s, sc') ->
  let overallSummary := fst (buildResults mainEntity s) in
  let firstParty := orDefault (JsMap.get (byEntity s) mainEntity) in
  (exists r,
     audit finalUrl networkRecords tasks settings (Some m) = (Normal r, sc')
     /\ forall d, details r = Some d -> details_summary d = overallSummary)
  /\ wastedBytes overallSummary
     + (if Js.truthy mainEntity then transferSize firstParty else 0)
     == total transferSize (byEntity s)
  /\ wastedMs overallSummary
     + (if Js.truthy mainEntity then blockingTime firstParty else 0)
     == total blockingTime (byEntity s).
Proof.
  intros P finalUrl rs ts settings m h s sc' Hh Hs overallSummary firstParty.
  split.
  { exists (verdict (fst (buildResults h s)) (snd (buildResults h s))).
    split; [rewrite audit_unfold; unfold hostOf; now rewrite Hh, Hs|].
    intros d. destruct (snd (buildResults h s)); simpl; [discriminate|].
    intros H. now injection H as <-. }
  pose proof (returned_byEntity_NoDup m rs ts (multiplierOf settings) s sc' Hs) as Hnd.
  unfold overallSummary, buildResults.
  destruct (mapEntry_fold s (filter (keepEntity h) (JsMap.entries (byEntity s)))
              {| wastedBytes := 0; wastedMs := 0 |} []) as (_ & Hb & Hm).
  cbv zeta in Hb, Hm. destruct (fold_left _ _ _) as [o rows].
  cbn [fst snd wastedBytes wastedMs] in *. unfold firstParty.
  pose proof (dropped_share transferSize (byEntity s) h (reflexivity _) Hnd) as D1.
  pose proof (dropped_share blockingTime (byEntity s) h (reflexivity _) Hnd) as D2.
  pose proof (sumQ_filter_split (fun e => transferSize (snd e)) (keepEntity h)
                (byEntity s)) as S1.
  pose proof (sumQ_filter_split (fun e => blockingTime (snd e)) (keepEntity h)
                (byEntity s)) as S2.
  unfold total, JsMap.values, JsMap.entries in *. rewrite !map_map.
  destruct (Js.truthy h); split; lra.
Qed.

Lemma overall_excludes_first_party_witness :
  wastedBytes (fst (buildResults "a.com" Example.fileSummaries)) == 10000
  /\ total transferSize (byEntity Example.fileSummaries) == 12000.
Proof.
  assert (Hs : @getSummaries Example.platform Example.fileRecords []
                 (multiplierOf None) Example.freshScope
               = (Normal Example.fileSummaries, Some (byURL Example.fileSummaries)))
    by reflexivity.
  destruct (overall_excludes_first_party Example.platform "https://a.com/"
              Example.fileRecords [] None JsMap.empty "a.com" Example.fileSummaries
              (Some (byURL Example.fileSummaries)) eq_refl Hs) as (_ & Hb & _).
  assert (Ht : total transferSize (byEntity Example.fileSummaries) == 12000)
    by (vm_compute; reflexivity).
  split; [|exact Ht].
  change (Js.truthy "a.com") with true in Hb.
  change (transferSize (orDefault (JsMap.get (byEntity Example.fileSummaries) "a.com")))
    with 2000 in Hb.
  cbv iota in Hb. lra.
Defined.

(** X14.  Each row of the result is an entry of [byEntity] that the filter
    keeps: it carries that entity's summary, its link has the entity as text
    and as URL, and its sub-items are [makeSubItems] of that entity.  No
    entity has two rows.  When the [Map] found has distinct keys and neither
    it nor the records have a negative size, the sub-items of a row weigh no
    more than the row, and there are at most 101 of them. *)
Theorem audit_rows_are_entities :
  forall (P : Platform) (finalUrl : string) (networkRecords : list NetworkRecord.t)
         (tasks : list Task) (settings : option Settings) (m : JsMap.t Summary)
         (mainEntity : string) (s : Summaries) (sc' : Scope),
  url_host finalUrl = Some mainEntity ->
  getSummaries networkRecords tasks (multiplierOf settings) (Some m) = (Normal s, sc') ->
  exists r,
    audit finalUrl networkRecords tasks settings (Some m) = (Normal r, sc')
    /\ NoDup (rowEntities (resultRows r))
    /\ Forall (fun row =>
                 let entity := link_text (row_entity row) in
                 JsMap.get (byEntity s) entity = Some (row_stats row)
                 /\ keepEntity mainEntity (entity, row_stats row) = true
                 /\ link_url (row_entity row) = entity
                 /\ row_subItems row = makeSubItems entity s (row_stats row))
              (resultRows r)
    /\ (NoDup (JsMap.keys m) ->
        forallb (fun rq => Qle_bool 0 (NetworkRecord.transferSize rq)) networkRecords = true ->
        forallb (fun v => Qle_bool 0 (transferSize v)) (JsMap.values m) = true ->
        Forall (fun row =>
                  itemBytes (row_subItems row) <= transferSize (row_stats row)
                  /\ (List.length (row_subItems row) <= 101)%nat)
               (resultRows r)).
Proof.
  intros P finalUrl rs ts settings m h s sc' Hh Hs.
  exists (verdict (fst (buildResults h s)) (snd (buildResults h s))).
  split; [rewrite audit_unfold; unfold hostOf; now rewrite Hh, Hs|].
  rewrite resultRows_verdict.
  pose proof (returned_byEntity_NoDup m rs ts (multiplierOf settings) s sc' Hs) as Hnd.
  destruct (buildResults_spec h s) as (Hres & Hperm & _). cbv zeta in Hres, Hperm.
  split; [|split].
  - apply (Permutation_NoDup (Permutation_sym Hperm)).
    apply filter_keeps_distinct. exact Hnd.
  - apply Forall_forall. intros row Hin. rewrite Hres in Hin.
    apply (Permutation_in _ (sort_perm _ _)) in Hin.
    apply in_map_iff in Hin as ([entity stats] & <- & Hin).
    apply filter_In in Hin as [Hin Hkeep]. simpl.
    split; [exact (get_of_entry _ _ _ Hnd Hin)|].
    split; [exact Hkeep|]. split; reflexivity.
  - intros Hm Hr Hv. apply Forall_forall. intros row Hin.
    exact (rows_subItems_bounded m rs ts (multiplierOf settings) s sc' h row
             Hm Hr Hv Hs Hin).
Qed.

Lemma audit_rows_are_entities_witness :
  exists r sc',
    @audit Example.platform "https://b.com/" Example.fileRecords [] None
      Example.freshScope = (Normal r, sc')
    /\ NoDup (rowEntities (resultRows r))
    /\ List.length (resultRows r) = 2%nat.
Proof.
  assert (Hs : @getSummaries Example.platform Example.fileRecords []
                 (multiplierOf None) Example.freshScope
               = (Normal Example.fileSummaries, Some (byURL Example.fileSummaries)))
    by reflexivity.
  destruct (audit_rows_are_entities Example.platform "https://b.com/"
              Example.fileRecords [] None JsMap.empty "b.com" Example.fileSummaries
              (Some (byURL Example.fileSummaries)) eq_refl Hs) as (r & Hr & Hnd & _).
  exists r, (Some (byURL Example.fileSummaries)).
  split; [exact Hr|]. split; [exact Hnd|].
  assert (Hr' : @audit Example.platform "https://b.com/" Example.fileRecords [] None
                  Example.freshScope
                = (Normal (verdict (fst (buildResults "b.com" Example.fileSummaries))
                                   (snd (buildResults "b.com" Example.fileSummaries))),
                   Some (byURL Example.fileSummaries)))
    by reflexivity.
  pose proof (eq_trans (eq_sym Hr) Hr') as Heq. injection Heq as ->. reflexivity.
Defined.

(** X15.  The result is flagged not applicable exactly when there is no row,
    that is when [byEntity] has no entity other than the non-empty host of
    the final URL; with an empty host, exactly when [byEntity] is empty. *)
Theorem not_applicable_iff_no_third_party :
  forall (P : Platform) (finalUrl : string) (networkRecords : list NetworkRecord.t)
         (tasks : list Task) (settings : option Settings) (sc : Scope)
         (mainEntity : string) (s : Summaries) (sc' : Scope),
  url_host finalUrl = Some mainEntity ->
  getSummaries networkRecords tasks (multiplierOf settings) sc = (Normal s, sc') ->
  exists r,
    audit finalUrl networkRecords tasks settings sc = (Normal r, sc')
    /\ (notApplicable r = true <-> resultRows r = [])
    /\ (notApplicable r = true
        <-> forall entity, In entity (JsMap.keys (byEntity s)) ->
              mainEntity <> ""%string /\ entity = mainEntity)
    /\ (notApplicable r = true -> score r = 1 /\ details r = None).
Proof.
  intros P finalUrl rs ts settings sc h s sc' Hh Hs.
  exists (verdict (fst (buildResults h s)) (snd (buildResults h s))).
  split; [rewrite audit_unfold; unfold hostOf; now rewrite Hh, Hs|].
  rewrite resultRows_verdict.
  destruct (buildResults_spec h s) as (Hres & _). cbv zeta in Hres.
  assert (Hna : notApplicable (verdict (fst (buildResults h s)) (snd (buildResults h s)))
                = true <-> snd (buildResults h s) = []).
  { destruct (snd (buildResults h s)); simpl; split; intros H;
      try reflexivity; discriminate. }
  split; [exact Hna|]. split.
  - rewrite Hna, Hres, sort_nil_iff. unfold JsMap.keys, JsMap.entries. split.
    + intros Hnil entity Hin. apply in_map_iff in Hin as ([e es] & <- & Hin). simpl.
      destruct (keepEntity h (e, es)) eqn:Ek.
      * exfalso. apply map_eq_nil in Hnil.
        assert (Hf : In (e, es) (filter (keepEntity h) (byEntity s)))
          by (apply filter_In; now split).
        rewrite Hnil in Hf. destruct Hf.
      * unfold keepEntity, Js.truthy in Ek. simpl in Ek.
        apply negb_false_iff, andb_true_iff in Ek as [Ht Ee].
        apply negb_true_iff in Ht. apply String.eqb_eq in Ee.
        split; [|now symmetry]. intros ->. discriminate.
    + intros Hall.
      assert (Hf : filter (keepEntity h) (byEntity s) = []); [|now rewrite Hf].
      destruct (filter (keepEntity h) (byEntity s)) as [|[e es] l] eqn:Ef; [reflexivity|].
      assert (Hin : In (e, es) (filter (keepEntity h) (byEntity s)))
        by (rewrite Ef; now left).
      apply filter_In in Hin as [Hin Hk].
      destruct (Hall e) as [Hne ->]; [now apply (in_map fst) in Hin|].
      unfold keepEntity, Js.truthy in Hk. simpl in Hk.
      rewrite String.eqb_refl in Hk.
      destruct (String.eqb_spec h ""); [contradiction|discriminate].
  - intros H. apply Hna in H. rewrite H. simpl. split; reflexivity.
Qed.

Lemma not_applicable_iff_no_third_party_witness :
  exists r sc',
    @audit Example.platform "https://a.com/" Example.recordsA Example.tasksA
      (Some (mkSettings "simulate" 4)) Example.freshScope = (Normal r, sc')
    /\ notApplicable r = true.
Proof.
  assert (Hs : @getSummaries Example.platform Example.recordsA Example.tasksA
                 (multiplierOf (Some (mkSettings "simulate" 4))) Example.freshScope
               = (Normal Example.summariesA4, Some (byURL Example.summariesA4)))
    by reflexivity.
  destruct (not_applicable_iff_no_third_party Example.platform "https://a.com/"
              Example.recordsA Example.tasksA (Some (mkSettings "simulate" 4))
              Example.freshScope "a.com" Example.summariesA4
              (Some (byURL Example.summariesA4)) eq_refl Hs)
    as (r & Hr & _ & Hiff & _).
  exists r, (Some (byURL Example.summariesA4)). split; [exact Hr|].
  apply Hiff. intros entity Hin. vm_compute in Hin.
  destruct Hin as [<-|[]]. split; [discriminate | reflexivity].
Defined.

(** ** The totals after an invocation *)

(** X16.  With [byURL] bound, the totals of the returned [byEntity] are the
    totals of the returned [byURL], and these are what the [Map] held when
    the function was entered plus the bytes of the records, the scaled
    durations of the tasks and their parts beyond 50 ms: nothing of the
    input is lost or counted twice, and nothing of the [Map] is dropped. *)
Theorem entity_totals_accumulate :
  forall (P : Platform) (m : JsMap.t Summary) (networkRecords : list NetworkRecord.t)
         (mainThreadTasks : list Task) (cpuMultiplier : Q) (s : Summaries) (sc : Scope),
  getSummaries networkRecords mainThreadTasks cpuMultiplier (Some m) = (Normal s, sc) ->
  (total transferSize (byEntity s) == total transferSize (byURL s)
   /\ total mainThreadTime (byEntity s) == total mainThreadTime (byURL s)
   /\ total blockingTime (byEntity s) == total blockingTime (byURL s))
  /\ total transferSize (byEntity s)
     == total transferSize m + sumQ (map NetworkRecord.transferSize networkRecords)
  /\ total mainThreadTime (byEntity s)
     == total mainThreadTime m + sumQ (map (taskDuration cpuMultiplier) mainThreadTasks)
  /\ total blockingTime (byEntity s)
     == total blockingTime m + sumQ (map (clipped cpuMultiplier) mainThreadTasks).
Proof.
  intros P m rs ts c s sc Hs. split.
  - repeat split.
    + apply (byEntity_total transferSize (reflexivity _) (fun a b => reflexivity _)
               m rs ts c s sc Hs).
    + apply (byEntity_total mainThreadTime (reflexivity _) (fun a b => reflexivity _)
               m rs ts c s sc Hs).
    + apply (byEntity_total blockingTime (reflexivity _) (fun a b => reflexivity _)
               m rs ts c s sc Hs).
  - exact (getSummaries_totals m rs ts c s sc Hs).
Qed.

Lemma entity_totals_accumulate_witness :
  total transferSize (byEntity Example.summariesA4) == 10000
  /\ total blockingTime (byEntity Example.summariesA4) == 1050.
Proof.
  assert (Hs : @getSummaries Example.platform Example.recordsA Example.tasksA 4
                 (Some JsMap.empty)
               = (Normal Example.summariesA4, Some (byURL Example.summariesA4)))
    by reflexivity.
  destruct (entity_totals_accumulate Example.platform JsMap.empty Example.recordsA
              Example.tasksA 4 Example.summariesA4 _ Hs) as (_ & Ht & _ & Hb).
  split; [rewrite Ht | rewrite Hb]; vm_compute; reflexivity.
Defined.

(** ** A larger multiplier *)

Lemma summaryLe_default : summaryLe defaultSummary defaultSummary.
Proof. unfold summaryLe. simpl. repeat split; lra. Qed.

Lemma mapLe_refl (m : JsMap.t Summary) : mapLe m m.
Proof.
  unfold mapLe. induction m as [|e m IH]; constructor; [|exact IH].
  unfold summaryLe. repeat split; lra.
Qed.

Lemma mapLe_get (m1 m2 : JsMap.t Summary) (k : string) :
  mapLe m1 m2 -> summaryLe (orDefault (JsMap.get m1 k)) (orDefault (JsMap.get m2 k)).
Proof.
  induction 1 as [|[k1 v1] [k2 v2] m1 m2 [Hk Hv] Hm IH]; simpl;
    [apply summaryLe_default|].
  simpl in Hk. subst k2. destruct (String.eqb k1 k); [exact Hv | exact IH].
Qed.

Lemma mapLe_set (m1 m2 : JsMap.t Summary) (k : string) (v1 v2 : Summary) :
  mapLe m1 m2 -> summaryLe v1 v2 -> mapLe (JsMap.set m1 k v1) (JsMap.set m2 k v2).
Proof.
  intros Hm Hv.
  induction Hm as [|[k1 w1] [k2 w2] m1 m2 [Hk Hw] Hm IH]; simpl.
  - constructor; [split; [reflexivity | exact Hv] | constructor].
  - simpl in Hk. subst k2. destruct (String.eqb k1 k).
    + constructor; [split; [reflexivity | exact Hv] | exact Hm].
    + constructor; [split; [reflexivity | exact Hw] | exact IH].
Qed.

Section Slowdown.

Context {P : Platform}.

Lemma requests_mapLe (networkRecords : list NetworkRecord.t) :
  forall m1 m2, mapLe m1 m2 ->
  mapLe (fold_left requestStep networkRecords m1) (fold_left requestStep networkRecords m2).
Proof.
  induction networkRecords as [|r rs IH]; intros m1 m2 Hm; simpl; [exact Hm|].
  apply IH. unfold requestStep. apply mapLe_set; [exact Hm|].
  destruct (mapLe_get m1 m2 (NetworkRecord.url r) Hm) as (Ht & Hb & Hmt).
  unfold summaryLe. simpl. repeat split; lra.
Qed.

Lemma clipped_mono (c c' : Q) (t : Task) :
  c <= c' -> 0 <= selfTime t ->
  selfTime t * c <= selfTime t * c'
  /\ Qmax (selfTime t * c - 50) 0 <= Qmax (selfTime t * c' - 50) 0.
Proof.
  intros Hc Ht.
  assert (H : selfTime t * c <= selfTime t * c') by nra.
  split; [exact H|].
  apply Q.max_le_compat_r. lra.
Qed.

Lemma tasks_mapLe (jsURLs : JsURLs) (c c' : Q) (tasks : list Task) :
  c <= c' ->
  forallb (fun t => Qle_bool 0 (selfTime t)) tasks = true ->
  forall m1 m2, mapLe m1 m2 ->
  mapLe (fold_left (taskStep jsURLs c) tasks m1) (fold_left (taskStep jsURLs c') tasks m2).
Proof.
  intros Hc. induction tasks as [|t ts IH]; intros Hts m1 m2 Hm; simpl in *; [exact Hm|].
  apply andb_true_iff in Hts as [Ht Hts]. apply Qle_bool_iff in Ht.
  apply (IH Hts). unfold taskStep. apply mapLe_set; [exact Hm|].
  destruct (mapLe_get m1 m2 (getAttributableURLForTask t jsURLs) Hm) as (H1 & H2 & H3).
  destruct (clipped_mono c c' t Hc Ht) as [Hd Hcl].
  unfold summaryLe. simpl. repeat split; lra.
Qed.

Lemma entries_mapLe (entries1 entries2 : list (string * Summary)) :
  mapLe entries1 entries2 ->
  forall st1 st2 st2', mapLe (fst st1) (fst st2) ->
  foldC addEntry entries2 st2 = Normal st2' ->
  exists st1', foldC addEntry entries1 st1 = Normal st1' /\ mapLe (fst st1') (fst st2').
Proof.
  induction 1 as [|[u1 v1] [u2 v2] l1 l2 [Hu Hv] Hl IH]; intros st1 st2 st2' Hst; simpl.
  - intros H. injection H as <-. eauto.
  - simpl in Hu. subst u2.
    destruct st1 as [bE1 us1], st2 as [bE2 us2]. unfold addEntry at 1 3.
    destruct (url_host u1) as [e|]; [|discriminate].
    apply IH. simpl in *. apply mapLe_set; [exact Hst|].
    destruct (mapLe_get bE1 bE2 e Hst) as (H1 & H2 & H3).
    destruct Hv as (H4 & H5 & H6).
    unfold summaryLe. simpl. repeat split; lra.
Qed.

End Slowdown.

Lemma kept_mapLe (mainEntity : string) (l1 l2 : JsMap.t Summary) :
  mapLe l1 l2 ->
  List.length (filter (keepEntity mainEntity) l1)
  = List.length (filter (keepEntity mainEntity) l2)
  /\ sumQ (map (fun e => blockingTime (snd e)) (filter (keepEntity mainEntity) l1))
     <= sumQ (map (fun e => blockingTime (snd e)) (filter (keepEntity mainEntity) l2)).
Proof.
  induction 1 as [|[k1 v1] [k2 v2] l1 l2 [Hk (_ & Hb & _)] Hl [IHlen IHsum]]; simpl;
    [split; [reflexivity | lra]|].
  simpl in Hk. subst k2.
  assert (Hkeep : keepEntity mainEntity (k1, v1) = keepEntity mainEntity (k1, v2))
    by reflexivity.
  rewrite Hkeep. destruct (keepEntity mainEntity (k1, v2)); simpl in *;
    split; try lia; try lra.
Qed.

Lemma buildResults_wastedMs (mainEntity : string) (s : Summaries) :
  wastedMs (fst (buildResults mainEntity s))
  == sumQ (map (fun e => blockingTime (snd e))
             (filter (keepEntity mainEntity) (byEntity s)))
  /\ List.length (snd (buildResults mainEntity s))
     = List.length (filter (keepEntity mainEntity) (byEntity s)).
Proof.
  destruct (buildResults_spec mainEntity s) as (Hres & _). cbv zeta in Hres.
  rewrite Hres, (Permutation_length (sort_perm _ _)), length_map.
  split; [|reflexivity]. unfold buildResults.
  destruct (mapEntry_fold s (filter (keepEntity mainEntity) (JsMap.entries (byEntity s)))
              {| wastedBytes := 0; wastedMs := 0 |} []) as (_ & _ & Hm).
  cbv zeta in Hm. destruct (fold_left _ _ _) as [o rows].
  cbn [fst snd wastedMs] in *. unfold JsMap.entries in *. lra.
Qed.

(** X17.  A larger CPU slowdown multiplier never helps.  For the same
    records, tasks of non-negative self time and the same [Map], if the audit
    under simulated throttling returns with the multiplier [c'], it returns
    with any smaller multiplier [c], with as many rows, the same
    not-applicable flag and a score that is 1 whenever the score with [c'] is
    1. *)
Theorem slowdown_never_helps :
  forall (P : Platform) (finalUrl : string) (networkRecords : list NetworkRecord.t)
         (tasks : list Task) (c c' : Q) (m : JsMap.t Summary)
         (r' : AuditResult) (sc' : Scope),
  c <= c' ->
  forallb (fun t => Qle_bool 0 (selfTime t)) tasks = true ->
  audit finalUrl networkRecords tasks (Some (mkSettings "simulate" c')) (Some m)
  = (Normal r', sc') ->
  exists r sc1,
    audit finalUrl networkRecords tasks (Some (mkSettings "simulate" c)) (Some m)
    = (Normal r, sc1)
    /\ List.length (resultRows r) = List.length (resultRows r')
    /\ notApplicable r = notApplicable r'
    /\ (score r' = 1 -> score r = 1).
Proof.
  intros P finalUrl rs ts c c' m r' sc' Hc Hts.
  rewrite !audit_unfold. destruct (hostOf finalUrl) as [h|]; [|discriminate].
  change (multiplierOf (Some (mkSettings "simulate" c'))) with c'.
  change (multiplierOf (Some (mkSettings "simulate" c))) with c.
  rewrite !getSummaries_bound. cbv zeta.
  assert (Hle : mapLe (aggregated m rs ts c) (aggregated m rs ts c')).
  { unfold aggregated. apply tasks_mapLe; try assumption.
    apply requests_mapLe, mapLe_refl. }
  destruct (foldC addEntry (JsMap.entries (aggregated m rs ts c')) _) as [st2|] eqn:E2;
    [|discriminate].
  intros H. injection H as <- _.
  destruct (entries_mapLe _ _ Hle (JsMap.empty, JsMap.empty) (JsMap.empty, JsMap.empty)
              st2 (mapLe_refl _) E2) as (st1 & E1 & Hst).
  unfold JsMap.entries in *. rewrite E1.
  eexists. eexists. split; [reflexivity|].
  rewrite !resultRows_verdict.
  set (s1 := {| byURL := aggregated m rs ts c; byEntity := fst st1; urls := snd st1 |}).
  set (s2 := {| byURL := aggregated m rs ts c'; byEntity := fst st2; urls := snd st2 |}).
  destruct (buildResults_wastedMs h s1) as [Hw1 Hl1].
  destruct (buildResults_wastedMs h s2) as [Hw2 Hl2].
  destruct (kept_mapLe h (fst st1) (fst st2) Hst) as [Hlen Hsum].
  simpl in Hw1, Hl1, Hw2, Hl2.
  assert (Hrows : List.length (snd (buildResults h s1))
                  = List.length (snd (buildResults h s2))) by congruence.
  split; [exact Hrows|].
  destruct (snd (buildResults h s1)) as [|row1 rows1];
    destruct (snd (buildResults h s2)) as [|row2 rows2]; try discriminate; simpl.
  - split; reflexivity.
  - split; [reflexivity|]. unfold Js.leb, PASS_THRESHOLD_IN_MS.
    destruct (Qle_bool (wastedMs (fst (buildResults h s2))) 250) eqn:E250;
      [|intros H; discriminate H].
    apply Qle_bool_iff in E250. intros _.
    assert (Hw : wastedMs (fst (buildResults h s1)) <= 250) by lra.
    apply Qle_bool_iff in Hw. now rewrite Hw.
Qed.

Lemma slowdown_never_helps_witness :
  exists r sc1,
    @audit Example.platform "https://b.com/" Example.recordsA Example.tasksA
      (Some (mkSettings "simulate" 1)) Example.freshScope = (Normal r, sc1)
    /\ List.length (resultRows r) = 1%nat.
Proof.
  destruct (slowdown_never_helps Example.platform "https://b.com/" Example.recordsA
              Example.tasksA 1 4 JsMap.empty
              (verdict (fst (buildResults "b.com" Example.summariesA4))
                       (snd (buildResults "b.com" Example.summariesA4)))
              (Some (byURL Example.summariesA4)))
    as (r & sc1 & Hr & Hlen & _).
  - vm_compute. discriminate.
  - reflexivity.
  - reflexivity.
  - exists r, sc1. split; [exact Hr|]. rewrite Hlen. reflexivity.
Defined.
